(** * dependency_scanner: a shallow embedding of the two scanner scripts

    [dependency_scanner.py] (single repository, text report) and
    [dependency_scanner_multi_repo.py] (several repositories, CSV report)
    are embedded as Rocq functions.  Python values are modelled as the code
    has them: a value that is a [str] or [None] is an [option string], a
    [dict] is an insertion-ordered association list, printing and raising
    are made explicit in the [outcome] type, and the three library
    services the scripts lean on (ElementTree, [re], [csv]) are modelled by
    the fragment of their behaviour that the scripts exercise.

    Characters are code points below 256; a text is a [string]. *)

From Stdlib Require Import String Ascii List Bool Arith Lia Permutation.
Import ListNotations.

Set Warnings "-register-all".

Open Scope string_scope.
Open Scope list_scope.

(** The double quote and other characters that are awkward in literals. *)
Definition dquote : ascii := "034"%char.
Definition squote : ascii := "039"%char.
Definition CR : ascii := "013"%char.
Definition LF : ascii := "010"%char.

(* ================================================================= *)
(** ** Python strings *)

Module Str.

Definition cat (a b : string) : string := String.append a b.

(** [s.startswith(p)] *)
Definition startswith (s p : string) : bool := String.prefix p s.

(** [s[n:]] *)
Fixpoint drop (n : nat) (s : string) : string :=
  match n, s with
  | O, _ => s
  | S _, EmptyString => EmptyString
  | S n', String _ s' => drop n' s'
  end.

(** [s[:n]] *)
Fixpoint take (n : nat) (s : string) : string :=
  match n, s with
  | O, _ => EmptyString
  | S _, EmptyString => EmptyString
  | S n', String c s' => String c (take n' s')
  end.

(** [s.endswith(p)] *)
Definition endswith (s p : string) : bool :=
  Nat.leb (String.length p) (String.length s) &&
  String.eqb (drop (String.length s - String.length p) s) p.

(** [s[2:-1]] *)
Definition slice_2_m1 (s : string) : string :=
  take (String.length s - 3) (drop 2 s).

(** [p in s] *)
Fixpoint contains (s p : string) : bool :=
  String.prefix p s ||
  match s with
  | EmptyString => false
  | String _ s' => contains s' p
  end.

(** [s.replace(old, new)] for a non-empty [old]: the occurrences are
    replaced from the left and do not overlap; [skip] counts the
    characters of an occurrence that are still to be passed over. *)
Fixpoint replace_from (old new : string) (skip : nat) (s : string) : string :=
  match s with
  | EmptyString => EmptyString
  | String c s' =>
      match skip with
      | S n => replace_from old new n s'
      | O =>
          if String.prefix old s
          then cat new (replace_from old new (String.length old - 1) s')
          else String c (replace_from old new 0 s')
      end
  end.

(** With an empty [old] Python puts [new] before every character and at
    the end. *)
Fixpoint interleave (new s : string) : string :=
  match s with
  | EmptyString => new
  | String c s' => cat new (String c (interleave new s'))
  end.

Definition replace (s old new : string) : string :=
  match old with
  | EmptyString => interleave new s
  | _ => replace_from old new 0 s
  end.

(** Truth value of a [str]-or-[None] value. *)
Definition truthy (v : option string) : bool :=
  match v with
  | Some s => negb (String.eqb s EmptyString)
  | None => false
  end.

End Str.

(* ================================================================= *)
(** ** Python dictionaries (insertion ordered) *)

Module Dict.

Definition t (V : Type) : Type := list (string * V).

Definition empty {V} : t V := [].

(** [d[k] = v]: an existing key keeps its place, a new key goes last. *)
Fixpoint set {V} (k : string) (v : V) (d : t V) : t V :=
  match d with
  | [] => [(k, v)]
  | (k', v') :: d' =>
      if String.eqb k k' then (k, v) :: d' else (k', v') :: set k v d'
  end.

(** [d.get(k)] as an option: [None] when the key is absent. *)
Fixpoint lookup {V} (k : string) (d : t V) : option V :=
  match d with
  | [] => None
  | (k', v') :: d' => if String.eqb k k' then Some v' else lookup k d'
  end.

(** [d.get(k, default)] *)
Definition get {V} (k : string) (default : V) (d : t V) : V :=
  match lookup k d with
  | Some v => v
  | None => default
  end.

Definition keys {V} (d : t V) : list string := map fst d.
Definition values {V} (d : t V) : list V := map snd d.

End Dict.

(* ================================================================= *)
(** ** Printing and raising *)

(** The exceptions that leave the calls of the scripts: those of
    [open] and of reading a file ([OSError] stands for one of another
    class than the four before it), that of decoding the bytes of a
    file, and those of the XML reader on an encoding declaration it does
    not take. *)
Inductive exn : Type :=
| FileNotFoundError
| PermissionError
| IsADirectoryError
| NotADirectoryError
| OSError
| UnicodeDecodeError
| LookupError
| ValueError.

(** What a call does: the lines it printed, and either the value it
    returned or the exception that left it. *)
Inductive outcome (A : Type) : Type :=
| Returned (printed : list string) (value : A)
| Raised (printed : list string) (e : exn).

Arguments Returned {A} printed value.
Arguments Raised {A} printed e.

Definition ret {A} (a : A) : outcome A := Returned [] a.

Definition print (line : string) : outcome unit := Returned [line] tt.

Definition bind {A B} (m : outcome A) (f : A -> outcome B) : outcome B :=
  match m with
  | Returned p a =>
      match f a with
      | Returned q b => Returned (p ++ q) b
      | Raised q e => Raised (p ++ q) e
      end
  | Raised p e => Raised p e
  end.

Notation "x <- m ;; k" := (bind m (fun x => k))
  (at level 61, m at next level, right associativity).
Notation "m ;;; k" := (bind m (fun _ => k))
  (at level 61, right associativity).

Definition printed {A} (m : outcome A) : list string :=
  match m with
  | Returned p _ => p
  | Raised p _ => p
  end.

(* ================================================================= *)
(** ** The file system as the scripts see it *)

(** An element of an ElementTree: its expanded tag ([{uri}local]), its
    [text] ([None] when the element has no character data) and its child
    elements in document order. *)
Inductive Element : Type :=
| Elem (tag : string) (text : option string) (children : list Element).

Definition tag (e : Element) : string := let (t, _, _) := e in t.
Definition text (e : Element) : option string := let (_, t, _) := e in t.
Definition children (e : Element) : list Element := let (_, _, c) := e in c.

(** What [ET.parse] makes of the bytes of a file: a tree, the
    exception [ET.ParseError], or another exception ([LookupError] on
    an encoding declaration that names no codec, [ValueError] on one
    that names a multi-byte codec). *)
Inductive xml_view : Type :=
| WellFormed (root : Element)
| ParseError (msg : string)
| Refused (e : exn).

(** What a path gives: nothing there, no permission, another failure
    of [open] (a directory, a path through a regular file, ...), a file
    that is read as text, with its characters and, next to them, what
    the XML reader makes of the file, or a file that opens but whose
    text cannot be read ([UnicodeDecodeError] when its bytes are no text
    in the encoding of the call). *)
Inductive file_state : Type :=
| Missing
| Denied
| Unopenable (e : exn)
| Readable (content : string) (xml : xml_view)
| Unreadable (e : exn) (xml : xml_view).

Definition filesystem : Type := string -> file_state.

(** [ET.parse(path).getroot()]: [ET.ParseError] is kept apart since
    both scripts catch it; every other exception is given as it is
    raised. *)
Inductive parse_result : Type :=
| Root (root : Element)
| XmlError (msg : string)
| OsError (e : exn).

Definition ET_parse (fs : filesystem) (path : string) : parse_result :=
  match fs path with
  | Missing => OsError FileNotFoundError
  | Denied => OsError PermissionError
  | Unopenable e => OsError e
  | Readable _ (WellFormed root) | Unreadable _ (WellFormed root) => Root root
  | Readable _ (ParseError msg) | Unreadable _ (ParseError msg) => XmlError msg
  | Readable _ (Refused e) | Unreadable _ (Refused e) => OsError e
  end.

(** Text mode with the default [newline]: [\r\n] and [\r] are read as
    [\n]. *)
Fixpoint universal_newlines (after_cr : bool) (s : string) : string :=
  match s with
  | EmptyString => EmptyString
  | String c s' =>
      if Ascii.eqb c CR then String LF (universal_newlines true s')
      else if Ascii.eqb c LF && after_cr then universal_newlines false s'
      else String c (universal_newlines false s')
  end.

(** [open(path, 'r')] and what is read from the file then, in the
    encoding of the call; the exception when opening or reading raises
    one. *)
Definition read_text (fs : filesystem) (path : string) : exn + string :=
  match fs path with
  | Missing => inl FileNotFoundError
  | Denied => inl PermissionError
  | Unopenable e => inl e
  | Readable content _ => inr (universal_newlines false content)
  | Unreadable e _ => inl e
  end.

(** The namespace map of both scripts and the expansion of [mvn:local]. *)
Definition mvn : string := "http://maven.apache.org/POM/4.0.0".
Definition mvn_brace : string := Str.cat "{" (Str.cat mvn "}").
Definition qname (local : string) : string := Str.cat mvn_brace local.

(** [e.find('mvn:local', namespace)]: the first child with that tag. *)
Definition find (e : Element) (local : string) : option Element :=
  List.find (fun c => String.eqb (tag c) (qname local)) (children e).

(** [e.findall('mvn:local', namespace)]: all such children, in order. *)
Definition findall (e : Element) (local : string) : list Element :=
  List.filter (fun c => String.eqb (tag c) (qname local)) (children e).

(** [e.iter()] without [e] itself: the descendants in document order. *)
Fixpoint descendants (e : Element) : list Element :=
  let (_, _, cs) := e in
  (fix over (l : list Element) : list Element :=
     match l with
     | [] => []
     | c :: l' => c :: descendants c ++ over l'
     end) cs.

(** [root.findall('.//mvn:a/mvn:b', namespace)] *)
Definition findall_deep (root : Element) (a b : string) : list Element :=
  flat_map (fun d => findall d b)
    (List.filter (fun d => String.eqb (tag d) (qname a)) (descendants root)).

(* ================================================================= *)
(** ** Dependency records *)

(** The dictionary [{'groupId': .., 'artifactId': .., 'version': ..}];
    each value is a [str] or [None]. *)
Record dep : Type := mkdep {
  groupId : option string;
  artifactId : option string;
  version : option string
}.

(* ================================================================= *)
(** ** dependency_scanner.py: [parse_maven_pom] *)

(** The loop over the children of the properties node. *)
Definition tag_name (prop : Element) : string :=
  Str.replace (tag prop) mvn_brace "".

Definition read_properties (root : Element) : Dict.t (option string) :=
  match find root "properties" with
  | Some properties_node =>
      fold_left (fun properties prop =>
                   Dict.set (tag_name prop) (text prop) properties)
                (children properties_node) Dict.empty
  | None => Dict.empty
  end.

Definition read_parent_version (root : Element) : option string :=
  match find root "parent" with
  | Some parent_node =>
      match find parent_node "version" with
      | Some parent_version_node => text parent_version_node
      | None => None
      end
  | None => None
  end.

Definition is_property_reference (version_text : option string) : bool :=
  match version_text with
  | Some s => Str.truthy version_text && Str.startswith s "${" && Str.endswith s "}"
  | None => false
  end.

(** The value of [resolved_version] when the record is appended. *)
Definition resolve_version (properties : Dict.t (option string))
    (parent_version : option string) (d : Element) : option string :=
  match find d "version" with
  | Some v =>
      let version_text := text v in
      match version_text with
      | Some s =>
          if is_property_reference version_text
          then Dict.get (Str.slice_2_m1 s) (Some "UNKNOWN") properties
          else version_text
      | None => version_text
      end
  | None => if Str.truthy parent_version then parent_version else None
  end.

(** One turn of the loop over the dependency elements: the record that is
    appended, if any. *)
Definition maven_record (properties : Dict.t (option string))
    (parent_version : option string) (d : Element) : option dep :=
  match find d "groupId", find d "artifactId" with
  | Some group_id, Some artifact_id =>
      let resolved_version := resolve_version properties parent_version d in
      Some {| groupId := text group_id;
              artifactId := text artifact_id;
              version := if Str.truthy resolved_version
                         then resolved_version else Some "N/A" |}
  | _, _ => None
  end.

Fixpoint filter_map {A B} (f : A -> option B) (l : list A) : list B :=
  match l with
  | [] => []
  | a :: l' =>
      match f a with
      | Some b => b :: filter_map f l'
      | None => filter_map f l'
      end
  end.

(** The body of the [try] once the document is parsed. *)
Definition maven_dependencies (root : Element) : list dep :=
  let properties := read_properties root in
  let parent_version := read_parent_version root in
  match find root "dependencies" with
  | Some dependencies_node =>
      filter_map (maven_record properties parent_version)
                 (findall dependencies_node "dependency")
  | None => []
  end.

Definition parse_maven_pom (fs : filesystem) (pom_path : string)
  : outcome (list dep) :=
  match ET_parse fs pom_path with
  | Root root => ret (maven_dependencies root)
  | XmlError e =>
      print (Str.cat "Error parsing XML for "
               (Str.cat pom_path (Str.cat ": " e))) ;;; ret []
  | OsError FileNotFoundError =>
      print (Str.cat "File not found: " pom_path) ;;; ret []
  | OsError e => Raised [] e
  end.

(* ================================================================= *)
(** ** dependency_scanner_multi_repo.py: [parse_pom] *)

Definition pom_record (dependency : Element) : option dep :=
  match find dependency "groupId", find dependency "artifactId" with
  | Some group_id, Some artifact_id =>
      Some {| groupId := text group_id;
              artifactId := text artifact_id;
              version := match find dependency "version" with
                         | Some v => text v
                         | None => Some "N/A"
                         end |}
  | _, _ => None
  end.

Definition pom_dependencies (root : Element) : list dep :=
  filter_map pom_record (findall_deep root "dependencies" "dependency").

Definition parse_pom (fs : filesystem) (file_path : string)
  : outcome (list dep) :=
  match ET_parse fs file_path with
  | Root root => ret (pom_dependencies root)
  | XmlError e =>
      print (Str.cat "Error parsing XML file "
               (Str.cat file_path (Str.cat ": " e))) ;;; ret []
  | OsError e => Raised [] e
  end.

(* ================================================================= *)
(** ** The regular expressions of [re] that the scripts use *)

Module Re.

(** Patterns: a character class, concatenation, ordered alternation,
    greedy repetition and numbered capture groups.  [r+] is [r r*] and
    [r?] is [r|()] with [r] tried first. *)
Inductive regex : Type :=
| Eps
| Chr (p : ascii -> bool)
| Cat (r1 r2 : regex)
| Alt (r1 r2 : regex)
| Star (r : regex)
| Group (n : nat) (r : regex).

Definition plus (r : regex) : regex := Cat r (Star r).
Definition opt (r : regex) : regex := Alt r Eps.

Fixpoint lit (s : string) : regex :=
  match s with
  | EmptyString => Eps
  | String c s' => Cat (Chr (Ascii.eqb c)) (lit s')
  end.

Fixpoint seq (rs : list regex) : regex :=
  match rs with
  | [] => Eps
  | [r] => r
  | r :: rs' => Cat r (seq rs')
  end.

Fixpoint alts (rs : list regex) : regex :=
  match rs with
  | [] => Chr (fun _ => false)
  | [r] => r
  | r :: rs' => Alt r (alts rs')
  end.

(** The groups that took part in a match, most recent first. *)
Definition captures : Type := list (nat * string).

(** [match.group(n)]: [None] when the group did not take part. *)
Fixpoint group (n : nat) (c : captures) : option string :=
  match c with
  | [] => None
  | (m, s) :: c' => if Nat.eqb n m then Some s else group n c'
  end.

Section Backtracking.

Context {R : Type}.

(** The continuation is what remains of the pattern; it receives what
    remains of the text. *)
Definition cont : Type := string -> captures -> option R.

(** Greedy repetition: one more turn of the body is tried before leaving
    the loop.  A turn has to consume a character (no body of a repetition
    in the scripts' patterns can match the empty text), so the length of
    the text bounds the number of turns. *)
Fixpoint iterate (fuel : nat) (body : string -> captures -> cont -> option R)
    (s : string) (c : captures) (k : cont) : option R :=
  match fuel with
  | O => k s c
  | S fuel' =>
      match body s c (fun s' c' =>
                        if Nat.ltb (String.length s') (String.length s)
                        then iterate fuel' body s' c' k else None) with
      | Some x => Some x
      | None => k s c
      end
  end.

(** The backtracking matcher: the first success in the order in which
    [re] explores the alternatives. *)
Fixpoint run (r : regex) (s : string) (c : captures) (k : cont) : option R :=
  match r with
  | Eps => k s c
  | Chr p =>
      match s with
      | String a s' => if p a then k s' c else None
      | EmptyString => None
      end
  | Cat r1 r2 => run r1 s c (fun s' c' => run r2 s' c' k)
  | Alt r1 r2 =>
      match run r1 s c k with
      | Some x => Some x
      | None => run r2 s c k
      end
  | Star r1 => iterate (String.length s) (run r1) s c k
  | Group n r1 =>
      run r1 s c (fun s' c' =>
        k s' ((n, Str.take (String.length s - String.length s') s) :: c'))
  end.

End Backtracking.

(** A match that starts at the beginning of [s]: what follows the match
    and the groups. *)
Definition match_here (r : regex) (s : string) : option (string * captures) :=
  run r s [] (fun s' c => Some (s', c)).

(** [re.search(r, s)]: the match at the leftmost position that has one. *)
Fixpoint search (r : regex) (s : string) : option captures :=
  match match_here r s with
  | Some (_, c) => Some c
  | None =>
      match s with
      | EmptyString => None
      | String _ s' => search r s'
      end
  end.

(** [r.finditer(s)]: the successive non-overlapping matches, from the
    left.  (None of the scripts' patterns matches the empty text; after
    such a match the scan would move on by one character.) *)
Fixpoint finditer_from (fuel : nat) (r : regex) (s : string) : list captures :=
  match fuel with
  | O => []
  | S fuel' =>
      match match_here r s with
      | Some (s', c) =>
          c :: (if Nat.ltb (String.length s') (String.length s)
                then finditer_from fuel' r s'
                else match s with
                     | EmptyString => []
                     | String _ t => finditer_from fuel' r t
                     end)
      | None =>
          match s with
          | EmptyString => []
          | String _ t => finditer_from fuel' r t
          end
      end
  end.

Definition finditer (r : regex) (s : string) : list captures :=
  finditer_from (S (String.length s)) r s.

(** *** Character classes *)

Definition code (a : ascii) : nat := nat_of_ascii a.

Definition between (lo hi : nat) (a : ascii) : bool :=
  Nat.leb lo (code a) && Nat.leb (code a) hi.

(** [\s] on a [str] pattern. *)
Definition space (a : ascii) : bool :=
  between 9 13 a || between 28 32 a ||
  Nat.eqb (code a) 133 || Nat.eqb (code a) 160.

Definition ascii_alnum (a : ascii) : bool :=
  between 48 57 a || between 65 90 a || between 97 122 a.

(** [\w] on a [str] pattern: alphanumeric or underscore. *)
Definition word (a : ascii) : bool :=
  ascii_alnum a || Ascii.eqb a "_" ||
  Nat.eqb (code a) 170 || between 178 179 a || Nat.eqb (code a) 181 ||
  between 185 186 a || between 188 190 a ||
  between 192 214 a || between 216 246 a || between 248 255 a.

Definition any_of (l : list ascii) (a : ascii) : bool :=
  existsb (Ascii.eqb a) l.

Definition none_of (l : list ascii) (a : ascii) : bool :=
  negb (any_of l a).

End Re.

(* ================================================================= *)
(** ** dependency_scanner.py: [parse_gradle_build_file] *)

Import Re.

(** [[a-zA-Z0-9\._-]] *)
Definition coord_char (a : ascii) : bool :=
  ascii_alnum a || any_of ["."; "_"; "-"]%char a.

Definition coord : regex := plus (Chr coord_char).
Definition quote : regex := Chr (any_of [squote; dquote]).
Definition spaces : regex := Star (Chr space).

Definition keywords : list regex :=
  map lit ["implementation"; "api"; "compileOnly"; "runtimeOnly";
           "testImplementation"; "testCompile"; "kapt"; "classpath"].

(** First alternative: keyword, then [group:artifact:version]. *)
Definition colon_triple : regex :=
  seq [ alts (keywords ++ [lit "implementation("]);
        Star (Chr (fun a => space a || any_of [dquote; squote] a));
        Group 1 coord; lit ":"; Group 2 coord; lit ":";
        Group 3 (Cat coord (Star (Cat (lit "-") (plus (Chr word)))));
        Star quote;
        opt (lit ")") ].

(** Second alternative: keyword, then [group: 'g', name: 'a', version: 'v']. *)
Definition named_arguments : regex :=
  seq [ alts keywords; plus (Chr space);
        lit "group:"; spaces; quote; Group 4 coord; quote; lit ",";
        spaces; lit "name:"; spaces; quote; Group 5 coord; quote; lit ",";
        spaces; lit "version:"; spaces; quote; Group 6 coord; quote ].

Definition dependency_pattern : regex := Alt colon_triple named_arguments.

Definition kotlin_dependency_pattern : regex :=
  seq [ alts (map lit ["kotlin"; "implementation"; "api"; "compileOnly";
                       "runtimeOnly"; "testImplementation"]);
        lit "("; quote; Group 1 coord; lit ":"; Group 2 coord; quote;
        lit ")"; plus (Chr space); lit "version"; plus (Chr space);
        quote; Group 3 coord; quote ].

(** The body of the first loop for one match. *)
Definition dependency_record (m : captures) : list dep :=
  if Str.truthy (group 1 m) && Str.truthy (group 2 m) && Str.truthy (group 3 m)
  then [ {| groupId := group 1 m; artifactId := group 2 m; version := group 3 m |} ]
  else if Str.truthy (group 4 m) && Str.truthy (group 5 m) && Str.truthy (group 6 m)
  then [ {| groupId := group 4 m; artifactId := group 5 m; version := group 6 m |} ]
  else [].

Definition kotlin_record (m : captures) : dep :=
  {| groupId := group 1 m; artifactId := group 2 m; version := group 3 m |}.

Definition gradle_build_dependencies (content : string) : list dep :=
  flat_map dependency_record (finditer dependency_pattern content)
  ++ map kotlin_record (finditer kotlin_dependency_pattern content).

Definition parse_gradle_build_file (fs : filesystem) (build_file_path : string)
  : outcome (list dep) :=
  match read_text fs build_file_path with
  | inr content => ret (gradle_build_dependencies content)
  | inl FileNotFoundError =>
      print (Str.cat "File not found: " build_file_path) ;;; ret []
  | inl e => Raised [] e
  end.

(* ================================================================= *)
(** ** dependency_scanner_multi_repo.py: [parse_gradle_file] *)

(** The lines of a text, each with its ending [\n]; [cur] is the part of
    the current line already passed. *)
Fixpoint split_lines (cur : string) (s : string) : list string :=
  match s with
  | EmptyString => if String.eqb cur EmptyString then [] else [cur]
  | String c s' =>
      if Ascii.eqb c LF
      then Str.cat cur (String c EmptyString) :: split_lines EmptyString s'
      else split_lines (Str.cat cur (String c EmptyString)) s'
  end.

(** [for line in f] *)
Definition file_lines (content : string) : list string :=
  split_lines EmptyString content.

(** The pattern of [re.search]: a quote, two runs of characters other
    than the colon, each followed by a colon, a run of characters other
    than the quotes, and a quote; the three runs are groups 1 to 3. *)
Definition line_pattern : regex :=
  seq [ quote; Group 1 (plus (Chr (none_of [":"%char]))); lit ":";
        Group 2 (plus (Chr (none_of [":"%char]))); lit ":";
        Group 3 (plus (Chr (none_of [squote; dquote]))); quote ].

(** The record made of [match.groups()]. *)
Definition line_record (m : captures) : dep :=
  {| groupId := group 1 m; artifactId := group 2 m; version := group 3 m |}.

Definition mentions_dependency (line : string) : bool :=
  Str.contains line "implementation" || Str.contains line "compile".

(** The body of the loop for one line. *)
Definition gradle_line (line : string) : list dep :=
  if mentions_dependency line
  then match search line_pattern line with
       | Some m => [line_record m]
       | None => []
       end
  else [].

Definition parse_gradle_file (fs : filesystem) (file_path : string)
  : outcome (list dep) :=
  match read_text fs file_path with
  | inr content => ret (flat_map gradle_line (file_lines content))
  | inl e => Raised [] e
  end.

(* ================================================================= *)
(** ** Walking a directory tree *)

(** [os.path.join(a, b)] *)
Definition os_path_join (a b : string) : string :=
  if Str.startswith b "/" then b
  else if String.eqb a EmptyString || Str.endswith a "/" then Str.cat a b
  else Str.cat a (Str.cat "/" b).

(** A directory: its subdirectories and the names of its files, both in
    the order in which the file system lists them. *)
Inductive dir_tree : Type :=
| Dir (dirs : list (string * dir_tree)) (files : list string).

(** One triple [(root, dirs, files)] of [os.walk]. *)
Definition walk_entry : Type := (string * list string * list string)%type.

Definition entry_root (e : walk_entry) : string := fst (fst e).
Definition entry_files (e : walk_entry) : list string := snd e.

(** [os.walk(top)], top-down. *)
Fixpoint os_walk (top : string) (t : dir_tree) : list walk_entry :=
  let (dirs, files) := t in
  (top, map fst dirs, files) ::
  (fix below (l : list (string * dir_tree)) : list walk_entry :=
     match l with
     | [] => []
     | (name, d) :: l' => os_walk (os_path_join top name) d ++ below l'
     end) dirs.

(* ================================================================= *)
(** ** dependency_scanner.py: [generate_dependency_report] and the report *)

Definition is_pom (file : string) : bool := String.eqb file "pom.xml".

Definition is_gradle (file : string) : bool :=
  Str.endswith file "build.gradle" || Str.endswith file "build.gradle.kts".

(** [if deps: project_dependencies[root] = deps] *)
Definition record_deps (root : string) (deps : list dep)
    (project_dependencies : Dict.t (list dep)) : Dict.t (list dep) :=
  match deps with
  | [] => project_dependencies
  | _ :: _ => Dict.set root deps project_dependencies
  end.

(** The inner loop over the files of one directory; the loop is left at
    the first file that is a descriptor.  ([is_project_root] is set and
    never used, so it is not carried along.) *)
Fixpoint scan_files (fs : filesystem) (root : string) (files : list string)
    (project_dependencies : Dict.t (list dep)) : outcome (Dict.t (list dep)) :=
  match files with
  | [] => ret project_dependencies
  | file :: rest =>
      if is_pom file then
        let pom_path := os_path_join root file in
        print (Str.cat "Found Maven project: " pom_path) ;;;
        deps <- parse_maven_pom fs pom_path ;;
        ret (record_deps root deps project_dependencies)
      else if is_gradle file then
        let gradle_path := os_path_join root file in
        print (Str.cat "Found Gradle project: " gradle_path) ;;;
        deps <- parse_gradle_build_file fs gradle_path ;;
        ret (record_deps root deps project_dependencies)
      else scan_files fs root rest project_dependencies
  end.

Definition is_descriptor (file : string) : bool := is_pom file || is_gradle file.

(** The parser that the loop calls on a descriptor of the directory. *)
Definition parse_descriptor (fs : filesystem) (root file : string)
  : outcome (list dep) :=
  if is_pom file then parse_maven_pom fs (os_path_join root file)
  else parse_gradle_build_file fs (os_path_join root file).

(** The outer loop over the triples of the walk. *)
Fixpoint scan_walk (fs : filesystem) (walk : list walk_entry)
    (project_dependencies : Dict.t (list dep)) : outcome (Dict.t (list dep)) :=
  match walk with
  | [] => ret project_dependencies
  | e :: walk' =>
      pd <- scan_files fs (entry_root e) (entry_files e) project_dependencies ;;
      scan_walk fs walk' pd
  end.

Definition generate_dependency_report (fs : filesystem) (repo_path : string)
    (tree : dir_tree) : outcome (Dict.t (list dep)) :=
  scan_walk fs (os_walk repo_path tree) Dict.empty.

(** How an f-string shows a [str]-or-[None] value. *)
Definition show (v : option string) : string :=
  match v with
  | Some s => s
  | None => "None"
  end.

Definition dependency_line (d : dep) : string :=
  Str.cat "  - Group: " (Str.cat (show (groupId d))
    (Str.cat ", Artifact: " (Str.cat (show (artifactId d))
      (Str.cat ", Version: " (show (version d)))))).

Definition no_dependencies_line : string := "  No dependencies found.".

Definition project_line (clone_dir project_path : string) : string :=
  Str.cat (String LF "Project: ")
          (Str.replace project_path (Str.cat clone_dir "/") "").

(** The lines that [main] prints for one entry of the report. *)
Definition project_lines (clone_dir : string) (entry : string * list dep)
  : list string :=
  let (project_path, dependencies) := entry in
  project_line clone_dir project_path ::
  match dependencies with
  | [] => [no_dependencies_line]
  | _ :: _ => map dependency_line dependencies
  end.

(** The loop of [main] over [report.items()]. *)
Definition report_lines (clone_dir : string) (report : Dict.t (list dep))
  : list string :=
  flat_map (project_lines clone_dir) report.

(* ================================================================= *)
(** ** dependency_scanner_multi_repo.py: collecting the rows *)

(** One dictionary of [all_dependencies]. *)
Record row : Type := mkrow {
  Repository : string;
  File : string;
  Group_ID : option string;
  Artifact_ID : option string;
  Version : option string
}.

Section MultiRepo.

(** [os.path.relpath], which only feeds the File column. *)
Variable relpath : string -> string -> string.

Definition dep_row (repo_name clone_dir file_path : string) (d : dep) : row :=
  {| Repository := repo_name;
     File := relpath file_path clone_dir;
     Group_ID := groupId d;
     Artifact_ID := artifactId d;
     Version := version d |}.

(** The loop over the files of one directory: every [pom.xml] and every
    [build.gradle] is parsed. *)
Fixpoint collect_files (fs : filesystem) (repo_name clone_dir root : string)
    (files : list string) (all_dependencies : list row) : outcome (list row) :=
  match files with
  | [] => ret all_dependencies
  | file :: rest =>
      let file_path := os_path_join root file in
      if String.eqb file "pom.xml" then
        deps <- parse_pom fs file_path ;;
        collect_files fs repo_name clone_dir root rest
          (all_dependencies ++ map (dep_row repo_name clone_dir file_path) deps)
      else if String.eqb file "build.gradle" then
        deps <- parse_gradle_file fs file_path ;;
        collect_files fs repo_name clone_dir root rest
          (all_dependencies ++ map (dep_row repo_name clone_dir file_path) deps)
      else collect_files fs repo_name clone_dir root rest all_dependencies
  end.

(** The loop over the walk of one cloned repository. *)
Fixpoint collect_walk (fs : filesystem) (repo_name clone_dir : string)
    (walk : list walk_entry) (all_dependencies : list row) : outcome (list row) :=
  match walk with
  | [] => ret all_dependencies
  | e :: walk' =>
      rows <- collect_files fs repo_name clone_dir (entry_root e)
                (entry_files e) all_dependencies ;;
      collect_walk fs repo_name clone_dir walk' rows
  end.

End MultiRepo.

(* ================================================================= *)
(** ** The [csv] module in its default (excel) dialect *)

Module Csv.

Definition delimiter : ascii := ","%char.
Definition CRLF : string := String CR (String LF EmptyString).

(** *** Writing *)

(** The characters that make the writer quote a field: the delimiter,
    the quote and the characters of the line terminator. *)
Definition special (c : ascii) : bool :=
  Ascii.eqb c delimiter || Ascii.eqb c dquote ||
  Ascii.eqb c CR || Ascii.eqb c LF.

Fixpoint needs_quotes (s : string) : bool :=
  match s with
  | EmptyString => false
  | String c s' => special c || needs_quotes s'
  end.

(** The characters of a field as they are copied: a quote is doubled. *)
Fixpoint escaped (s : string) : string :=
  match s with
  | EmptyString => EmptyString
  | String c s' =>
      if Ascii.eqb c dquote then String dquote (String dquote (escaped s'))
      else String c (escaped s')
  end.

Definition quoted (s : string) : string :=
  String dquote (Str.cat (escaped s) (String dquote EmptyString)).

Definition write_field (s : string) : string :=
  if needs_quotes s then quoted s else s.

Fixpoint join_fields (fields : list string) : string :=
  match fields with
  | [] => EmptyString
  | [f] => write_field f
  | f :: fs => Str.cat (write_field f) (String delimiter (join_fields fs))
  end.

(** [writer.writerow]: a record that would come out empty although it
    has a field is written as a pair of quotes. *)
Definition record_text (fields : list string) : string :=
  let rec := join_fields fields in
  match fields, rec with
  | _ :: _, EmptyString => quoted EmptyString
  | _, _ => rec
  end.

Definition writerow (fields : list string) : string :=
  Str.cat (record_text fields) CRLF.

Fixpoint writerows (rows : list (list string)) : string :=
  match rows with
  | [] => EmptyString
  | r :: rows' => Str.cat (writerow r) (writerows rows')
  end.

(** [None] is written as the empty text. *)
Definition cell (v : option string) : string :=
  match v with
  | Some s => s
  | None => EmptyString
  end.

(** *** Reading *)

Inductive state : Type :=
| START_RECORD
| START_FIELD
| IN_FIELD
| IN_QUOTED_FIELD
| QUOTE_IN_QUOTED_FIELD
| EAT_CRNL.

Definition state_eqb (a b : state) : bool :=
  match a, b with
  | START_RECORD, START_RECORD | START_FIELD, START_FIELD
  | IN_FIELD, IN_FIELD | IN_QUOTED_FIELD, IN_QUOTED_FIELD
  | QUOTE_IN_QUOTED_FIELD, QUOTE_IN_QUOTED_FIELD | EAT_CRNL, EAT_CRNL => true
  | _, _ => false
  end.

(** The reader between two characters: its state, the characters of the
    field it is in, and the fields of the record already saved. *)
Record reader : Type := mkreader {
  st : state;
  field : string;
  fields : list string
}.

Definition reset : reader :=
  {| st := START_RECORD; field := EmptyString; fields := [] |}.

Definition add_char (c : ascii) (r : reader) (s : state) : reader :=
  {| st := s; field := Str.cat (field r) (String c EmptyString);
     fields := fields r |}.

Definition save_field (r : reader) (s : state) : reader :=
  {| st := s; field := EmptyString; fields := fields r ++ [field r] |}.

Definition goto (r : reader) (s : state) : reader :=
  {| st := s; field := field r; fields := fields r |}.

(** What the reader is given: a character of a line, or the end of the
    line. *)
Inductive input : Type :=
| Ch (c : ascii)
| EOL.

Definition is_newline (i : input) : bool :=
  match i with
  | Ch c => Ascii.eqb c CR || Ascii.eqb c LF
  | EOL => true
  end.

Definition after_newline (i : input) : state :=
  match i with
  | EOL => START_RECORD
  | Ch _ => EAT_CRNL
  end.

Definition start_field (r : reader) (i : input) : option reader :=
  match i with
  | EOL => Some (save_field r START_RECORD)
  | Ch c =>
      if Ascii.eqb c CR || Ascii.eqb c LF then Some (save_field r EAT_CRNL)
      else if Ascii.eqb c dquote then Some (goto r IN_QUOTED_FIELD)
      else if Ascii.eqb c delimiter then Some (save_field r START_FIELD)
      else Some (add_char c r IN_FIELD)
  end.

(** One step of the reader; [None] is [csv.Error]. *)
Definition process_char (r : reader) (i : input) : option reader :=
  match st r with
  | START_RECORD =>
      match i with
      | EOL => Some r
      | Ch c =>
          if Ascii.eqb c CR || Ascii.eqb c LF then Some (goto r EAT_CRNL)
          else start_field r i
      end
  | START_FIELD => start_field r i
  | IN_FIELD =>
      match i with
      | EOL => Some (save_field r START_RECORD)
      | Ch c =>
          if Ascii.eqb c CR || Ascii.eqb c LF then Some (save_field r EAT_CRNL)
          else if Ascii.eqb c delimiter then Some (save_field r START_FIELD)
          else Some (add_char c r IN_FIELD)
      end
  | IN_QUOTED_FIELD =>
      match i with
      | EOL => Some r
      | Ch c =>
          if Ascii.eqb c dquote then Some (goto r QUOTE_IN_QUOTED_FIELD)
          else Some (add_char c r IN_QUOTED_FIELD)
      end
  | QUOTE_IN_QUOTED_FIELD =>
      match i with
      | EOL => Some (save_field r START_RECORD)
      | Ch c =>
          if Ascii.eqb c dquote then Some (add_char c r IN_QUOTED_FIELD)
          else if Ascii.eqb c delimiter then Some (save_field r START_FIELD)
          else if Ascii.eqb c CR || Ascii.eqb c LF
          then Some (save_field r EAT_CRNL)
          else Some (add_char c r IN_FIELD)
      end
  | EAT_CRNL =>
      match i with
      | EOL => Some (goto r START_RECORD)
      | Ch c => if Ascii.eqb c CR || Ascii.eqb c LF then Some r else None
      end
  end.

(** A file opened with [newline=''] hands out its lines with their
    endings: a line ends after [\n], after [\r\n], or after a [\r] that
    no [\n] follows. *)
Definition ends_line (c : ascii) (rest : string) : bool :=
  Ascii.eqb c LF ||
  (Ascii.eqb c CR &&
   match rest with
   | String c' _ => negb (Ascii.eqb c' LF)
   | EmptyString => true
   end).

(** When the input is exhausted inside a record, the record is closed. *)
Definition at_end (r : reader) (rows : list (list string))
  : list (list string) :=
  if negb (String.eqb (field r) EmptyString) || state_eqb (st r) IN_QUOTED_FIELD
  then rows ++ [fields r ++ [field r]]
  else rows.

(** After the end of a line: the record is handed out when the reader is
    back at [START_RECORD], and the next record starts from [reset]. *)
Definition end_of_line (r : reader) (rows : list (list string))
  : option (reader * list (list string)) :=
  match process_char r EOL with
  | Some r' =>
      if state_eqb (st r') START_RECORD
      then Some (reset, rows ++ [fields r'])
      else Some (r', rows)
  | None => None
  end.

(** Iterating the reader over the text of the file: the characters of
    each line, then the end of the line.  [in_line] tells whether the
    current line has a character already. *)
Fixpoint read_from (r : reader) (rows : list (list string)) (in_line : bool)
    (s : string) : option (list (list string)) :=
  match s with
  | EmptyString =>
      if in_line
      then match end_of_line r rows with
           | Some (r', rows') => Some (at_end r' rows')
           | None => None
           end
      else Some (at_end r rows)
  | String c s' =>
      match process_char r (Ch c) with
      | Some r1 =>
          if ends_line c s'
          then match end_of_line r1 rows with
               | Some (r2, rows') => read_from r2 rows' false s'
               | None => None
               end
          else read_from r1 rows true s'
      | None => None
      end
  end.

(** [list(csv.reader(f))] *)
Definition read (s : string) : option (list (list string)) :=
  read_from reset [] false s.

(** [csv.DictReader]: the first record names the columns, an empty
    record is passed over, a short record is completed with [None].  (The
    surplus of a long record goes under the key [None], which is no
    column.) *)
Fixpoint zip_row (names : list string) (r : list string)
    (d : Dict.t (option string)) : Dict.t (option string) :=
  match names, r with
  | [], _ => d
  | n :: names', [] => zip_row names' [] (Dict.set n None d)
  | n :: names', v :: r' => zip_row names' r' (Dict.set n (Some v) d)
  end.

Definition nonempty (r : list string) : bool :=
  match r with
  | [] => false
  | _ :: _ => true
  end.

Definition dict_rows (records : list (list string))
  : list (Dict.t (option string)) :=
  match records with
  | [] => []
  | names :: data =>
      map (fun r => zip_row names r Dict.empty) (List.filter nonempty data)
  end.

Definition DictReader (s : string) : option (list (Dict.t (option string))) :=
  match read s with
  | Some records => Some (dict_rows records)
  | None => None
  end.

End Csv.

(* ================================================================= *)
(** ** dependency_scanner_multi_repo.py: the CSV report *)

Definition csv_columns : list string :=
  ["Repository"; "File"; "Group ID"; "Artifact ID"; "Version"].

(** The values of a row in the order of [csv_columns]. *)
Definition row_values (r : row) : list (option string) :=
  [Some (Repository r); Some (File r); Group_ID r; Artifact_ID r; Version r].

(** The text that [main] writes: the header, then one line per row. *)
Definition report_csv (all_dependencies : list row) : string :=
  Str.cat (Csv.writerow csv_columns)
          (Csv.writerows (map (fun r => map Csv.cell (row_values r))
                              all_dependencies)).

(** The (repository, group, artifact, version) of a row, and of a row
    read back. *)
Definition coordinates : Type :=
  (option string * option string * option string * option string)%type.

Definition row_coordinates (r : row) : coordinates :=
  (Some (Repository r), Group_ID r, Artifact_ID r, Version r).

Definition dict_coordinates (d : Dict.t (option string)) : coordinates :=
  (Dict.get "Repository" None d, Dict.get "Group ID" None d,
   Dict.get "Artifact ID" None d, Dict.get "Version" None d).

Definition read_back (text : string) : option (list coordinates) :=
  match Csv.DictReader text with
  | Some ds => Some (map dict_coordinates ds)
  | None => None
  end.

(* ================================================================= *)
(** ** Concrete manifests, build files and trees *)

Module Sample.

(** An element in the Maven namespace. *)
Definition el (local : string) (t : option string) (cs : list Element)
  : Element := Elem (qname local) t cs.

Definition leaf (local value : string) : Element := el local (Some value) [].

(** A file system given by the list of its files. *)
Definition disk (files : list (string * file_state)) : filesystem :=
  fun path => Dict.get path Missing files.

Definition xml_file (content : string) (root : Element) : file_state :=
  Readable content (WellFormed root).

(** A text file; read as XML it is not well formed. *)
Definition text_file (content : string) : file_state :=
  Readable content (ParseError "syntax error: line 1, column 0").

Definition project_open : string :=
  "<project xmlns='http://maven.apache.org/POM/4.0.0'>".

(** A dependency whose version element has no text. *)
Definition pom_empty_version : file_state :=
  xml_file
    (Str.cat project_open
       "<dependencies><dependency><groupId>g</groupId><artifactId>a</artifactId><version/></dependency></dependencies></project>")
    (el "project" None
       [el "dependencies" None
          [el "dependency" None
             [leaf "groupId" "g"; leaf "artifactId" "a";
              el "version" None []]]]).

Definition lib_dependency (version_children : list Element) : Element :=
  el "dependency" None
     ([leaf "groupId" "com.example"; leaf "artifactId" "lib"]
      ++ version_children).

(** A version given through the property [x]. *)
Definition pom_property : file_state :=
  xml_file
    (Str.cat project_open
       "<properties><x>1.2.3</x></properties><dependencies><dependency><groupId>com.example</groupId><artifactId>lib</artifactId><version>${x}</version></dependency></dependencies></project>")
    (el "project" None
       [el "properties" None [leaf "x" "1.2.3"];
        el "dependencies" None [lib_dependency [leaf "version" "${x}"]]]).




(** A manifest with one plain dependency. *)
Definition pom_plain : file_state :=
  xml_file
    (Str.cat project_open
       "<dependencies><dependency><groupId>com.example</groupId><artifactId>lib</artifactId><version>1.0.0</version></dependency></dependencies></project>")
    (el "project" None
       [el "dependencies" None [lib_dependency [leaf "version" "1.0.0"]]]).

Definition lib (v : string) : dep :=
  {| groupId := Some "com.example"; artifactId := Some "lib";
     version := Some v |}.

(** Lines of build files. *)
Definition named_argument_line : string :=
  "implementation group: 'com.example', name: 'lib', version: '2.0.0'".

Definition in_quotes (s : string) : string :=
  String dquote (Str.cat s (String dquote EmptyString)).

Definition project_reference (module_path : string) : string :=
  Str.cat "implementation(project("
          (Str.cat (in_quotes module_path) "))").

Definition some_module_line : string := project_reference ":some-module".

Definition nested_module_line : string :=
  project_reference ":api-gateway:services:auth".

Definition two_coordinates_line : string :=
  "implementation 'org.a:first:1.0', 'org.b:second:2.0'".

Definition other_build_file : file_state :=
  text_file "implementation 'org.other:tool:3.1'".

Definition tool : dep :=
  {| groupId := Some "org.other"; artifactId := Some "tool";
     version := Some "3.1" |}.

(** A directory in which the build file is listed before the manifest,
    and the same directory listed the other way round. *)
Definition gradle_first : dir_tree := Dir [] ["build.gradle"; "pom.xml"].
Definition pom_first : dir_tree := Dir [] ["pom.xml"; "build.gradle"].

Definition both_descriptors (dir : string) : filesystem :=
  disk [(Str.cat dir "/pom.xml", pom_plain);
        (Str.cat dir "/build.gradle", other_build_file)].

(** [os.path.relpath] where the path lies below the start directory. *)
Definition relpath_below (path start : string) : string :=
  if Str.startswith path (Str.cat start "/")
  then Str.drop (S (String.length start)) path
  else path.

(** Rows of the CSV report. *)
Definition row_without_group : row :=
  {| Repository := "repo"; File := "pom.xml"; Group_ID := None;
     Artifact_ID := Some "a"; Version := Some "1.0" |}.

Definition row_with_commas : row :=
  {| Repository := "repo"; File := "build.gradle";
     Group_ID := Some "com.example', name";
     Artifact_ID := Some " 'lib', version"; Version := Some " " |}.

End Sample.

(** The text of a reference to the property [x]. *)
Definition reference (x : string) : string :=
  Str.cat "${" (Str.cat x "}").

(** A row all of whose values are texts. *)
Definition all_strings (r : row) : bool :=
  match Group_ID r, Artifact_ID r, Version r with
  | Some _, Some _, Some _ => true
  | _, _, _ => false
  end.

(* ================================================================= *)
(** ** Vocabulary of the statements *)

(** The line that the scan prints when it comes upon a descriptor. *)
Definition found_line (root file : string) : string :=
  if is_pom file
  then Str.cat "Found Maven project: " (os_path_join root file)
  else Str.cat "Found Gradle project: " (os_path_join root file).

(** An entry of the report with at least one record, and the lines that
    [main] prints for such an entry. *)
Definition populated_entry (entry : string * list dep) : Prop :=
  snd entry <> [].

Definition populated_lines (clone_dir : string) (entry : string * list dep)
  : list string :=
  project_line clone_dir (fst entry) :: map dependency_line (snd entry).

(** The states in which the CSV reader expects a field to begin. *)
Definition fresh (s : Csv.state) : Prop :=
  s = Csv.START_RECORD \/ s = Csv.START_FIELD.

(** A success of a matcher is a success of the continuation on what
    remains of the text. *)
Definition reaches {R : Type}
    (body : string -> captures -> @cont R -> option R) : Prop :=
  forall s c k res,
    body s c k = Some res ->
    exists s' c', String.length s' <= String.length s /\ k s' c' = Some res.

(** A matcher only looks at what the continuation answers. *)
Definition extensional {R : Type}
    (body : string -> captures -> @cont R -> option R) : Prop :=
  forall s c k1 k2,
    (forall s' c', k1 s' c' = k2 s' c') -> body s c k1 = body s c k2.

(* ================================================================= *)
(** ** dependency_scanner.py: [clone_repository] and [main] *)

(** What [subprocess.run(['git', 'clone', ..], check=True)] does: it
    returns, raises CalledProcessError (shown as [msg]), or raises
    FileNotFoundError when there is no git to run. *)
Inductive git_result : Type :=
| GitDone
| CalledProcessError (msg : string)
| NoGit.

Definition clone_repository (dir_exists : bool) (git : git_result)
    (repo_url clone_dir : string) : outcome bool :=
  if dir_exists then
    print (Str.cat "Directory '"
             (Str.cat clone_dir "' already exists. Skipping clone.")) ;;;
    ret true
  else
    print (Str.cat "Cloning '"
             (Str.cat repo_url (Str.cat "' into '" (Str.cat clone_dir "'...")))) ;;;
    match git with
    | GitDone => print "Repository cloned successfully." ;;; ret true
    | CalledProcessError e =>
        print (Str.cat "Error cloning repository: " e) ;;; ret false
    | NoGit => Raised [] FileNotFoundError
    end.

Definition newline : string := String LF EmptyString.

Fixpoint concat_all (l : list string) : string :=
  match l with
  | [] => EmptyString
  | s :: l' => Str.cat s (concat_all l')
  end.

(** [print] of several lines, one call each. *)
Definition print_all (lines : list string) : outcome unit := Returned lines tt.

(** What the second loop of [main] writes for one entry of the report. *)
Definition project_text (clone_dir : string) (entry : string * list dep)
  : string :=
  let (project_path, dependencies) := entry in
  Str.cat (Str.cat (project_line clone_dir project_path) newline)
    match dependencies with
    | [] => Str.cat no_dependencies_line newline
    | _ :: _ =>
        concat_all (map (fun d => Str.cat (dependency_line d) newline)
                        dependencies)
    end.

(** The text of [dependency_report.txt]. *)
Definition report_text (clone_dir : string) (report : Dict.t (list dep))
  : string :=
  Str.cat (Str.cat "--- Dependency Report ---" newline)
          (concat_all (map (project_text clone_dir) report)).

Definition clone_dir_002 : string := "cloned_repo002".

(** [main]: [repo_url] is what [input] returns, [dir_exists] and [git]
    are what cloning meets, [fs] and [tree] are the clone directory
    afterwards.  The value is the text written to the report file, if
    any. *)
Definition main (dir_exists : bool) (git : git_result) (fs : filesystem)
    (tree : dir_tree) (repo_url : string) : outcome (option string) :=
  cloned <- clone_repository dir_exists git repo_url clone_dir_002 ;;
  if negb cloned then
    print "Failed to clone repository. Exiting." ;;; ret None
  else
    print (String LF "Scanning for dependencies...") ;;;
    report <- generate_dependency_report fs clone_dir_002 tree ;;
    match report with
    | [] =>
        print "No Maven or Gradle projects with dependencies found." ;;;
        ret None
    | _ :: _ =>
        print (String LF "--- Dependency Report ---") ;;;
        print_all (report_lines clone_dir_002 report) ;;;
        print (String LF "Report saved to dependency_report.txt") ;;;
        ret (Some (report_text clone_dir_002 report))
    end.

(* ================================================================= *)
(** ** dependency_scanner_multi_repo.py: [clone_repo] and [main] *)

Definition repositories : list string :=
  ["https://github.com/your-org/repo1.git";
   "https://github.com/your-org/repo2.git";
   "https://github.com/your-org/repo3.git"].

Definition output_file : string := "dependency_report.csv".

Definition clone_repo (git : git_result) (repo_url clone_dir : string)
  : outcome bool :=
  print (Str.cat "Cloning "
           (Str.cat repo_url (Str.cat " into " (Str.cat clone_dir "...")))) ;;;
  match git with
  | GitDone => ret true
  | CalledProcessError e =>
      print (Str.cat "Error cloning repository "
               (Str.cat repo_url (Str.cat ": " e))) ;;;
      ret false
  | NoGit => Raised [] FileNotFoundError
  end.

(** [s.split('/')[-1]]: what follows the last slash; [cur] is the part
    of the current segment already passed. *)
Fixpoint last_segment_from (cur s : string) : string :=
  match s with
  | EmptyString => cur
  | String c s' =>
      if Ascii.eqb c "/" then last_segment_from EmptyString s'
      else last_segment_from (Str.cat cur (String c EmptyString)) s'
  end.

Definition last_segment (s : string) : string :=
  last_segment_from EmptyString s.

Definition repo_name_of (repo_url : string) : string :=
  Str.replace (last_segment repo_url) ".git" EmptyString.

Definition clone_dir_of (repo_url : string) : string :=
  os_path_join "/tmp" (repo_name_of repo_url).

(** A repository as [main] meets it: its URL, what git does, and the
    clone directory once cloned. *)
Record repository : Type := mkrepository {
  url : string;
  git_does : git_result;
  cloned_files : filesystem;
  cloned_tree : dir_tree
}.

(** The loop of [main] over the repositories. *)
Fixpoint collect_repositories (relpath : string -> string -> string)
    (repos : list repository) (all_dependencies : list row)
  : outcome (list row) :=
  match repos with
  | [] => ret all_dependencies
  | r :: repos' =>
      let repo_name := repo_name_of (url r) in
      let clone_dir := clone_dir_of (url r) in
      cloned <- clone_repo (git_does r) (url r) clone_dir ;;
      if cloned then
        rows <- collect_walk relpath (cloned_files r) repo_name clone_dir
                  (os_walk clone_dir (cloned_tree r)) all_dependencies ;;
        collect_repositories relpath repos' rows
      else collect_repositories relpath repos' all_dependencies
  end.

(** [main]: the value is the text written to the CSV file. *)
Definition main_multi_repo (relpath : string -> string -> string)
    (repos : list repository) : outcome string :=
  all_dependencies <- collect_repositories relpath repos [] ;;
  print (Str.cat "Report generated successfully at " output_file) ;;;
  ret (report_csv all_dependencies).

(* ================================================================= *)
(** ** More vocabulary *)

(** Every character of a text is in a class. *)
Fixpoint all_chars (p : ascii -> bool) (s : string) : bool :=
  match s with
  | EmptyString => true
  | String c s' => p c && all_chars p s'
  end.

(** A text starts with a character outside a class, or is empty. *)
Definition stops (p : ascii -> bool) (s : string) : bool :=
  match s with
  | EmptyString => true
  | String c _ => negb (p c)
  end.

(** The texts a pattern stands for and the groups it sets on them. *)
Inductive denotes : regex -> string -> captures -> captures -> Prop :=
| denotes_eps c : denotes Eps EmptyString c c
| denotes_chr p a c :
    p a = true -> denotes (Chr p) (String a EmptyString) c c
| denotes_cat r1 r2 w1 w2 c c1 c2 :
    denotes r1 w1 c c1 -> denotes r2 w2 c1 c2 ->
    denotes (Cat r1 r2) (Str.cat w1 w2) c c2
| denotes_alt_l r1 r2 w c c1 :
    denotes r1 w c c1 -> denotes (Alt r1 r2) w c c1
| denotes_alt_r r1 r2 w c c1 :
    denotes r2 w c c1 -> denotes (Alt r1 r2) w c c1
| denotes_star_stop r c : denotes (Star r) EmptyString c c
| denotes_star_more r w1 w2 c c1 c2 :
    denotes r w1 c c1 -> denotes (Star r) w2 c1 c2 ->
    denotes (Star r) (Str.cat w1 w2) c c2
| denotes_group n r w c c1 :
    denotes r w c c1 -> denotes (Group n r) w c ((n, w) :: c1).

(** A pattern without groups. *)
Fixpoint no_groups (r : regex) : bool :=
  match r with
  | Eps | Chr _ => true
  | Cat r1 r2 | Alt r1 r2 => no_groups r1 && no_groups r2
  | Star r1 => no_groups r1
  | Group _ _ => false
  end.

(** A coordinate part as the patterns of [parse_gradle_build_file] take
    it, and the characters its version may have besides. *)
Definition coordinate (s : string) : Prop :=
  s <> EmptyString /\ all_chars coord_char s = true.

Definition version_char (a : ascii) : bool := coord_char a || word a.

(** The value that tells whether a call returned or raised. *)
Definition value_of {A} (m : outcome A) : exn + A :=
  match m with
  | Returned _ a => inr a
  | Raised _ e => inl e
  end.

(** The first descriptor among the files of a directory. *)
Definition first_descriptor (files : list string) : option string :=
  List.find is_descriptor files.


(* ================================================================= *)
(** ** More manifests *)

Module Case.

Import Sample.

(** A reference to a property that the manifest does not define. *)
Definition dependencies_unknown : Element :=
  el "dependencies" None [lib_dependency [leaf "version" "${lib.version}"]].

Definition pom_unknown_property : file_state :=
  xml_file
    (Str.cat project_open
       "<dependencies><dependency><groupId>com.example</groupId><artifactId>lib</artifactId><version>${lib.version}</version></dependency></dependencies></project>")
    (el "project" None [dependencies_unknown]).

(** A parent without version and a dependency without version. *)
Definition pom_parent_without_version : file_state :=
  xml_file
    (Str.cat project_open
       "<parent><artifactId>p</artifactId></parent><dependencies><dependency><groupId>com.example</groupId><artifactId>lib</artifactId></dependency></dependencies></project>")
    (el "project" None
       [el "parent" None [leaf "artifactId" "p"];
        el "dependencies" None [lib_dependency []]]).

(** A dependency without groupId before a complete one. *)
Definition nameless : Element := el "dependency" None [leaf "artifactId" "lib"].

Definition plain : Element := lib_dependency [leaf "version" "1.0.0"].

Definition pom_unidentified : file_state :=
  xml_file
    (Str.cat project_open
       "<dependencies><dependency><artifactId>lib</artifactId></dependency><dependency><groupId>com.example</groupId><artifactId>lib</artifactId><version>1.0.0</version></dependency></dependencies></project>")
    (el "project" None [el "dependencies" None [nameless; plain]]).

(** A property that refers to another property. *)
Definition properties_chained : Element :=
  el "properties" None [leaf "y" "1.0"; leaf "x" "${y}"].

Definition pom_chained_property : file_state :=
  xml_file
    (Str.cat project_open
       "<properties><y>1.0</y><x>${y}</x></properties><dependencies><dependency><groupId>com.example</groupId><artifactId>lib</artifactId><version>${x}</version></dependency></dependencies></project>")
    (el "project" None
       [properties_chained;
        el "dependencies" None [lib_dependency [leaf "version" "${x}"]]]).

(** A dependency declared under dependencyManagement. *)
Definition pom_managed : file_state :=
  xml_file
    (Str.cat project_open
       "<dependencyManagement><dependencies><dependency><groupId>com.example</groupId><artifactId>lib</artifactId><version>1.0.0</version></dependency></dependencies></dependencyManagement></project>")
    (el "project" None
       [el "dependencyManagement" None [el "dependencies" None [plain]]]).


(** A build file whose bytes are no UTF-8 text, a manifest whose
    encoding declaration names no codec, and a path that leads through
    a regular file. *)
Definition build_file_latin1 : file_state :=
  Unreadable UnicodeDecodeError (ParseError "syntax error: line 1, column 0").

Definition pom_unknown_encoding : file_state :=
  Readable "<?xml version='1.0' encoding='bogus'?><project/>"
           (Refused LookupError).

Definition below_regular_file : file_state :=
  Unopenable NotADirectoryError.

(** A repository whose clone fails, and one that is cloned with a
    manifest and a build file at its top. *)
Definition broken : repository :=
  {| url := "https://github.com/example/broken.git";
     git_does := CalledProcessError "exit status 128";
     cloned_files := disk [];
     cloned_tree := Dir [] [] |}.

Definition cloned : repository :=
  {| url := "https://github.com/example/repo2.git";
     git_does := GitDone;
     cloned_files := both_descriptors "/tmp/repo2";
     cloned_tree := pom_first |}.

End Case.


(** A directory of the walk that lists a descriptor. *)
Definition project_of (walk : list walk_entry) (key : string) : Prop :=
  exists e, In e walk /\ entry_root e = key /\
            existsb is_descriptor (entry_files e) = true.

(** The characters other than the slash. *)
Definition not_slash (c : ascii) : bool := negb (Ascii.eqb c "/").

(** A line as the report file holds it. *)
Definition ended (line : string) : string := Str.cat line newline.

(** A row that comes from one of the repositories that were cloned. *)
Definition row_of_cloned (repos : list repository) (r : row) : Prop :=
  exists repo, In repo repos /\ git_does repo = GitDone /\
               Repository r = repo_name_of (url repo).





(** An entry of the report that holds records, and holds what the
    parser returned on the first descriptor of a walked directory of
    that path. *)
Definition parsed_entry (fs : filesystem) (walk : list walk_entry)
    (entry : string * list dep) : Prop :=
  snd entry <> [] /\
  exists e d out,
    In e walk /\ entry_root e = fst entry /\
    first_descriptor (entry_files e) = Some d /\
    parse_descriptor fs (entry_root e) d = Returned out (snd entry).

(** Every character class of a pattern lies within a class. *)
Fixpoint within (q : ascii -> bool) (r : regex) : Prop :=
  match r with
  | Eps => True
  | Chr p => forall a, p a = true -> q a = true
  | Cat r1 r2 | Alt r1 r2 => within q r1 /\ within q r2
  | Star r1 | Group _ r1 => within q r1
  end.

Definition not_colon : ascii -> bool := none_of [":"%char].
Definition not_quote : ascii -> bool := none_of [squote; dquote].
Definition quote_char : ascii -> bool := any_of [squote; dquote].
Definition space_or_quote (a : ascii) : bool :=
  space a || any_of [dquote; squote] a.

(** A record of [parse_gradle_build_file] as its patterns allow it. *)
Definition coordinate_record (r : dep) : Prop :=
  exists g a v,
    r = {| groupId := Some g; artifactId := Some a; version := Some v |} /\
    coordinate g /\ coordinate a /\
    v <> EmptyString /\ all_chars version_char v = true.

(** A record of [parse_gradle_file] as its pattern allows it. *)
Definition line_coordinate_record (r : dep) : Prop :=
  exists g a v,
    r = {| groupId := Some g; artifactId := Some a; version := Some v |} /\
    g <> EmptyString /\ all_chars not_colon g = true /\
    a <> EmptyString /\ all_chars not_colon a = true /\
    v <> EmptyString /\ all_chars not_quote v = true.

(** The characters other than the opening parenthesis. *)
Definition not_paren (c : ascii) : bool := negb (Ascii.eqb c "(").

(* ================================================================= *)
(** * Properties *)

(** ** Strings *)

Lemma cat_assoc (a b c : string) :
  Str.cat (Str.cat a b) c = Str.cat a (Str.cat b c).
Proof.
  unfold Str.cat. induction a as [|x a IH]; simpl; [reflexivity|].
  now rewrite IH.
Qed.

Lemma cat_empty_r (a : string) : Str.cat a EmptyString = a.
Proof.
  unfold Str.cat. induction a as [|x a IH]; simpl; [reflexivity|].
  now rewrite IH.
Qed.

Lemma length_cat (a b : string) :
  String.length (Str.cat a b) = String.length a + String.length b.
Proof.
  unfold Str.cat. induction a as [|x a IH]; simpl; [reflexivity|].
  now rewrite IH.
Qed.

Lemma drop_cat (a b : string) : Str.drop (String.length a) (Str.cat a b) = b.
Proof.
  unfold Str.cat. induction a as [|x a IH]; simpl; [|exact IH].
  now destruct b.
Qed.

Lemma take_cat (a b : string) : Str.take (String.length a) (Str.cat a b) = a.
Proof.
  unfold Str.cat. induction a as [|x a IH]; simpl; [now destruct b|].
  now rewrite IH.
Qed.

Lemma cat_cons (c : ascii) (a b : string) :
  Str.cat (String c a) b = String c (Str.cat a b).
Proof. reflexivity. Qed.

(** What the parser sees in the text of a property reference. *)
Lemma reference_is_reference (x : string) :
  is_property_reference (Some (reference x)) = true.
Proof.
  unfold is_property_reference, reference.
  assert (E : Str.endswith (Str.cat "${" (Str.cat x "}")) "}" = true).
  { unfold Str.endswith. rewrite <- cat_assoc.
    rewrite (length_cat (Str.cat "${" x) "}").
    replace (String.length (Str.cat "${" x) + String.length "}"
             - String.length "}") with (String.length (Str.cat "${" x))
      by (simpl; lia).
    rewrite drop_cat. apply andb_true_intro. split; [|reflexivity].
    apply Nat.leb_le. simpl. lia. }
  rewrite E. unfold Str.cat, Str.startswith. simpl.
  now destruct (x ++ "}")%string.
Qed.

Lemma reference_name (x : string) : Str.slice_2_m1 (reference x) = x.
Proof.
  unfold Str.slice_2_m1, reference.
  change (Str.drop 2 (Str.cat "${" (Str.cat x "}"))) with (Str.cat x "}").
  replace (String.length (Str.cat "${" (Str.cat x "}")) - 3)
    with (String.length x).
  - apply take_cat.
  - rewrite !length_cat. simpl. lia.
Qed.

(** ** Dictionaries *)

Lemma lookup_set_same {V} (k : string) (v : V) (d : Dict.t V) :
  Dict.lookup k (Dict.set k v d) = Some v.
Proof.
  induction d as [|[k' v'] d IH]; simpl.
  - now rewrite String.eqb_refl.
  - destruct (String.eqb k k') eqn:E; simpl; rewrite ?String.eqb_refl, ?E; auto.
Qed.

Lemma lookup_set_other {V} (k k' : string) (v : V) (d : Dict.t V) :
  k <> k' -> Dict.lookup k (Dict.set k' v d) = Dict.lookup k d.
Proof.
  intros N. induction d as [|[k2 v2] d IH]; simpl.
  - apply String.eqb_neq in N. now rewrite N.
  - destruct (String.eqb k' k2) eqn:E; simpl.
    + apply String.eqb_eq in E. subst k2.
      apply String.eqb_neq in N. now rewrite N.
    + now rewrite IH.
Qed.

(** After a loop of assignments the value under a key is the one of the
    last assignment to that key. *)
Lemma lookup_after_assignments {A V} (key : A -> string) (val : A -> V)
    (x : string) (after : list A) :
  (forall q, In q after -> key q <> x) ->
  forall d,
    Dict.lookup x (fold_left (fun d q => Dict.set (key q) (val q) d) after d)
    = Dict.lookup x d.
Proof.
  induction after as [|q after IH]; intros N d; simpl; [reflexivity|].
  rewrite IH by (intros q' Hq'; apply N; now right).
  apply lookup_set_other. intros E. apply (N q); [now left|now symmetry].
Qed.

Lemma lookup_last_assignment {A V} (key : A -> string) (val : A -> V)
    (x : string) (before after : list A) (p : A) (d : Dict.t V) :
  key p = x ->
  (forall q, In q after -> key q <> x) ->
  Dict.lookup x
    (fold_left (fun d q => Dict.set (key q) (val q) d) (before ++ p :: after) d)
  = Some (val p).
Proof.
  intros K N. rewrite fold_left_app. simpl.
  rewrite lookup_after_assignments by exact N.
  rewrite K. apply lookup_set_same.
Qed.

(** Assignments keep what holds of every value. *)
Lemma set_Forall {V} (P : string * V -> Prop) (k : string) (v : V)
    (d : Dict.t V) :
  P (k, v) -> Forall P d -> Forall P (Dict.set k v d).
Proof.
  intros Pk F. induction F as [|[k' v'] d Px F IH]; simpl.
  - constructor; [exact Pk|constructor].
  - destruct (String.eqb k k'); constructor; auto.
Qed.

(** ** Outcomes *)

Lemma bind_returned {A B} (m : outcome A) (f : A -> outcome B)
    (out : list string) (b : B) :
  bind m f = Returned out b ->
  exists o1 a o2, m = Returned o1 a /\ f a = Returned o2 b /\ out = o1 ++ o2.
Proof.
  unfold bind. destruct m as [o1 a|o1 e]; [|discriminate].
  destruct (f a) as [o2 b'|o2 e] eqn:E; [|discriminate].
  intros H. inversion H; subst. now exists o1, a, o2.
Qed.

Lemma bind_raised {A B} (m : outcome A) (f : A -> outcome B)
    (out : list string) (e : exn) :
  bind m f = Raised out e ->
  (exists o1, m = Raised o1 e) \/
  (exists o1 a o2, m = Returned o1 a /\ f a = Raised o2 e).
Proof.
  unfold bind. destruct m as [o1 a|o1 e'].
  - destruct (f a) as [o2 b'|o2 e'] eqn:E; [discriminate|].
    intros H. inversion H; subst. right. now exists o1, a, o2.
  - intros H. inversion H; subst. left. now exists out.
Qed.

(** ** Lists *)

Lemma filter_map_app {A B} (f : A -> option B) (l1 l2 : list A) :
  filter_map f (l1 ++ l2) = filter_map f l1 ++ filter_map f l2.
Proof.
  induction l1 as [|a l1 IH]; simpl; [reflexivity|].
  destruct (f a); simpl; now rewrite IH.
Qed.

Lemma filter_map_In {A B} (f : A -> option B) (l : list A) (b : B) :
  In b (filter_map f l) -> exists a, In a l /\ f a = Some b.
Proof.
  induction l as [|a l IH]; simpl; [tauto|].
  destruct (f a) as [b'|] eqn:E.
  - intros [->|H]; [now exists a; auto|].
    destruct (IH H) as [a' [? ?]]. exists a'; auto.
  - intros H. destruct (IH H) as [a' [? ?]]. exists a'; auto.
Qed.

(* ================================================================= *)
(** ** The matcher *)

Section Matcher.

Context {R : Type}.

Let body_type : Type := string -> captures -> @cont R -> option R.

Lemma iterate_reaches (body : body_type) :
  reaches body -> forall fuel, reaches (iterate fuel body).
Proof.
  intros B fuel. induction fuel as [|fuel IH]; intros s c k res; simpl.
  - intros H. exists s, c. split; [lia|exact H].
  - destruct (body s c _) as [x|] eqn:E.
    + intros H. inversion H; subst x. clear H.
      apply B in E. destruct E as [s1 [c1 [L1 E]]].
      destruct (Nat.ltb (String.length s1) (String.length s)); [|discriminate].
      apply IH in E. destruct E as [s2 [c2 [L2 E]]].
      exists s2, c2. split; [lia|exact E].
    + intros H. exists s, c. split; [lia|exact H].
Qed.

Lemma run_reaches (r : regex) : reaches (R := R) (run r).
Proof.
  induction r as [|p|r1 IH1 r2 IH2|r1 IH1 r2 IH2|r1 IH1|n r1 IH1];
    intros s c k res; simpl.
  - intros H. exists s, c. split; [lia|exact H].
  - destruct s as [|a s]; [discriminate|].
    destruct (p a); [|discriminate].
    intros H. exists s, c. split; [simpl; lia|exact H].
  - intros H. apply IH1 in H. destruct H as [s1 [c1 [L1 H]]].
    apply IH2 in H. destruct H as [s2 [c2 [L2 H]]].
    exists s2, c2. split; [lia|exact H].
  - destruct (run r1 s c k) as [x|] eqn:E.
    + intros H. inversion H; subst x. now apply IH1 in E.
    + apply IH2.
  - apply iterate_reaches, IH1.
  - intros H. apply IH1 in H. destruct H as [s1 [c1 [L1 H]]].
    eexists s1, _. split; [exact L1|exact H].
Qed.

Lemma iterate_extensional (body : body_type) :
  extensional body -> forall fuel, extensional (iterate fuel body).
Proof.
  intros B fuel. induction fuel as [|fuel IH]; intros s c k1 k2 K; simpl.
  - apply K.
  - rewrite (B s c _ (fun s' c' =>
               if Nat.ltb (String.length s') (String.length s)
               then iterate fuel body s' c' k2 else None)).
    + now rewrite K.
    + intros s' c'. destruct (Nat.ltb _ _); [|reflexivity]. now apply IH.
Qed.

Lemma run_extensional (r : regex) : extensional (R := R) (run r).
Proof.
  induction r as [|p|r1 IH1 r2 IH2|r1 IH1 r2 IH2|r1 IH1|n r1 IH1];
    intros s c k1 k2 K; simpl.
  - apply K.
  - destruct s as [|a s]; [reflexivity|]. destruct (p a); [apply K|reflexivity].
  - apply IH1. intros s' c'. now apply IH2.
  - now rewrite (IH1 s c k1 k2 K), (IH2 s c k1 k2 K).
  - now apply iterate_extensional.
  - apply IH1. intros s' c'. apply K.
Qed.

(** The length of the text is fuel enough for a repetition: any larger
    amount gives the same answer. *)
Lemma iterate_fuel_enough (body : body_type) :
  reaches body -> extensional body ->
  forall fuel1 fuel2 s c k,
    String.length s <= fuel1 -> String.length s <= fuel2 ->
    iterate fuel1 body s c k = iterate fuel2 body s c k.
Proof.
  intros B X.
  assert (Z : forall fuel s c k,
             String.length s = 0 -> iterate fuel body s c k = k s c).
  { intros [|fuel] s c k L; simpl; [reflexivity|].
    destruct (body s c _) as [x|] eqn:E; [|reflexivity].
    apply B in E. destruct E as [s1 [c1 [_ E]]].
    rewrite L in E. destruct (Nat.ltb_spec (String.length s1) 0);
      [lia|discriminate]. }
  induction fuel1 as [|fuel1 IH]; intros fuel2 s c k L1 L2.
  - rewrite !Z by lia. reflexivity.
  - destruct fuel2 as [|fuel2]; [rewrite !Z by lia; reflexivity|].
    simpl.
    rewrite (X s c _ (fun s' c' =>
               if Nat.ltb (String.length s') (String.length s)
               then iterate fuel2 body s' c' k else None)); [reflexivity|].
    intros s' c'. destruct (Nat.ltb_spec (String.length s') (String.length s));
      [|reflexivity].
    apply IH; lia.
Qed.

End Matcher.

(** What remains after a match is no longer than the text. *)
Lemma match_here_remainder (r : regex) (s s' : string) (c : captures) :
  match_here r s = Some (s', c) -> String.length s' <= String.length s.
Proof.
  unfold match_here. intros H. apply run_reaches in H.
  destruct H as [s1 [c1 [L H]]]. now inversion H; subst.
Qed.

(** The scan for successive matches has fuel enough as well. *)
Lemma finditer_fuel_enough (r : regex) : forall fuel1 fuel2 s,
  String.length s < fuel1 -> String.length s < fuel2 ->
  finditer_from fuel1 r s = finditer_from fuel2 r s.
Proof.
  induction fuel1 as [|fuel1 IH]; intros fuel2 s L1 L2; [lia|].
  destruct fuel2 as [|fuel2]; [lia|]. simpl.
  assert (T : match s with
              | EmptyString => []
              | String _ t => finditer_from fuel1 r t
              end
              = match s with
                | EmptyString => []
                | String _ t => finditer_from fuel2 r t
                end).
  { destruct s as [|a t]; [reflexivity|]. simpl in L1, L2. apply IH; lia. }
  destruct (match_here r s) as [[s' c]|]; [|exact T].
  f_equal. destruct (Nat.ltb_spec (String.length s') (String.length s));
    [apply IH; lia|exact T].
Qed.

(* ================================================================= *)
(** ** The structured-manifest parsers *)

Lemma truthy_populated (v : option string) :
  Str.truthy v = true -> exists s, v = Some s /\ s <> EmptyString.
Proof.
  destruct v as [s|]; simpl; [|discriminate].
  intros H. exists s. split; [reflexivity|].
  intros ->. discriminate.
Qed.

(** Every record of [parse_maven_pom] carries a version that is a
    non-empty text. *)
Lemma maven_record_version_populated props pv d r :
  maven_record props pv d = Some r ->
  exists s, version r = Some s /\ s <> EmptyString.
Proof.
  unfold maven_record.
  destruct (find d "groupId"); [|discriminate].
  destruct (find d "artifactId"); [|discriminate].
  intros H. inversion H; subst; clear H. simpl.
  destruct (Str.truthy (resolve_version props pv d)) eqn:T.
  - now apply truthy_populated.
  - exists "N/A". split; [reflexivity|discriminate].
Qed.

Lemma parse_maven_pom_returns fs path out deps :
  parse_maven_pom fs path = Returned out deps ->
  deps = [] \/
  exists root, ET_parse fs path = Root root /\ deps = maven_dependencies root.
Proof.
  unfold parse_maven_pom.
  destruct (ET_parse fs path) as [root|msg|[]]; simpl; intros H;
    inversion H; subst; auto.
  right. now exists root.
Qed.

Lemma parse_maven_pom_version_populated fs path out deps :
  parse_maven_pom fs path = Returned out deps ->
  Forall (fun r => exists s, version r = Some s /\ s <> EmptyString) deps.
Proof.
  intros H. apply parse_maven_pom_returns in H.
  destruct H as [->|[root [_ ->]]]; [constructor|].
  apply Forall_forall. intros r Hr. unfold maven_dependencies in Hr.
  destruct (find root "dependencies"); [|destruct Hr].
  apply filter_map_In in Hr. destruct Hr as [d [_ Hd]].
  now apply maven_record_version_populated in Hd.
Qed.

(** C2 (the code departs from the claim): for the manifest whose only
    dependency has a version element without text, [parse_pom] returns a
    record whose version is [None], where the claim asks for a non-empty
    text; [parse_maven_pom] returns the sentinel N/A on the same
    manifest. *)
Theorem parse_pom_empty_version_is_None :
  parse_pom (Sample.disk [("pom.xml", Sample.pom_empty_version)]) "pom.xml"
  = Returned [] [ {| groupId := Some "g"; artifactId := Some "a";
                     version := None |} ]
  /\
  parse_maven_pom (Sample.disk [("pom.xml", Sample.pom_empty_version)]) "pom.xml"
  = Returned [] [ {| groupId := Some "g"; artifactId := Some "a";
                     version := Some "N/A" |} ].
Proof. split; vm_compute; reflexivity. Qed.

(** *** Paths that cannot be read *)




(** *** Property references *)

Lemma read_properties_last root pn before p after x :
  find root "properties" = Some pn ->
  children pn = before ++ p :: after ->
  tag_name p = x ->
  (forall q, In q after -> tag_name q <> x) ->
  Dict.lookup x (read_properties root) = Some (text p).
Proof.
  intros F C K N. unfold read_properties. rewrite F, C.
  now apply (lookup_last_assignment tag_name text).
Qed.

Lemma resolve_reference props pv d v x value :
  find d "version" = Some v ->
  text v = Some (reference x) ->
  Dict.lookup x props = Some value ->
  resolve_version props pv d = value.
Proof.
  intros F T L. unfold resolve_version. rewrite F, T.
  rewrite reference_is_reference, reference_name.
  unfold Dict.get. now rewrite L.
Qed.

(** The records of a manifest, around one of its dependency elements. *)
Lemma maven_dependencies_around root dn ds1 d ds2 :
  find root "dependencies" = Some dn ->
  findall dn "dependency" = ds1 ++ d :: ds2 ->
  maven_dependencies root
  = filter_map (maven_record (read_properties root) (read_parent_version root)) ds1
    ++ filter_map (maven_record (read_properties root) (read_parent_version root))
         (d :: ds2).
Proof.
  intros F A. unfold maven_dependencies. rewrite F, A.
  apply filter_map_app.
Qed.




(** *** The version of the parent *)





(* ================================================================= *)
(** ** The semi-structured parsers *)

(** C6 as stated fails for [parse_gradle_file]: on the named-argument
    line its pattern runs from the first quote over two colons and makes
    a record of whatever lies between them. *)
Lemma named_arguments_misread_by_parse_gradle_file :
  parse_gradle_file
    (Sample.disk [("build.gradle", Sample.text_file Sample.named_argument_line)])
    "build.gradle"
  = Returned [] [ {| groupId := Some "com.example', name";
                     artifactId := Some " 'lib', version";
                     version := Some " " |} ]
  /\
  parse_gradle_file
    (Sample.disk [("build.gradle", Sample.text_file Sample.named_argument_line)])
    "build.gradle"
  <> Returned [] [Sample.lib "2.0.0"].
Proof. split; vm_compute; [reflexivity|discriminate]. Qed.

(** C6 (amended): on a build file whose text is the named-argument line
    [implementation group: 'com.example', name: 'lib', version: '2.0.0'],
    [parse_gradle_build_file] returns exactly the record
    (com.example, lib, 2.0.0). *)
Theorem parse_gradle_build_file_named_arguments
    (fs : filesystem) (path : string) (xml : xml_view) :
  fs path = Readable Sample.named_argument_line xml ->
  parse_gradle_build_file fs path = Returned [] [Sample.lib "2.0.0"].
Proof.
  intros H. unfold parse_gradle_build_file, read_text. rewrite H.
  vm_compute. reflexivity.
Qed.

Lemma parse_gradle_build_file_named_arguments_witness :
  parse_gradle_build_file
    (Sample.disk [("build.gradle", Sample.text_file Sample.named_argument_line)])
    "build.gradle"
  = Returned [] [Sample.lib "2.0.0"].
Proof.
  apply (parse_gradle_build_file_named_arguments _ _
           (ParseError "syntax error: line 1, column 0")).
  reflexivity.
Defined.

(** The reference to a module of the comment in the source is a match
    for no pattern of either parser. *)
Lemma some_module_line_yields_nothing :
  gradle_build_dependencies Sample.some_module_line = [] /\
  gradle_line Sample.some_module_line = [].
Proof. split; vm_compute; reflexivity. Qed.

(** C7 (the code departs from the claim): the line
    [implementation(project(":api-gateway:services:auth"))] refers to a
    module of the repository, and [parse_gradle_build_file] returns a
    record for it: the keyword [api] is found inside the module path and
    what follows it is read as group, artifact and version. *)
Theorem nested_module_reference_yields_record :
  parse_gradle_build_file
    (Sample.disk [("build.gradle", Sample.text_file Sample.nested_module_line)])
    "build.gradle"
  = Returned [] [ {| groupId := Some "-gateway";
                     artifactId := Some "services";
                     version := Some "auth" |} ].
Proof. vm_compute. reflexivity. Qed.

(** *** One record per line *)

Lemma finditer_from_head (r : regex) (s : string) :
  hd_error (finditer r s) = search r s.
Proof.
  unfold finditer. induction s as [|a t IH].
  - simpl. destruct (match_here r EmptyString) as [[s' c]|]; reflexivity.
  - cbn [String.length finditer_from search].
    destruct (match_here r (String a t)) as [[s' c]|]; [reflexivity|].
    exact IH.
Qed.

Lemma gradle_line_first_match (line : string) :
  gradle_line line
  = if mentions_dependency line
    then match finditer line_pattern line with
         | m :: _ => [line_record m]
         | [] => []
         end
    else [].
Proof.
  unfold gradle_line. rewrite <- finditer_from_head.
  destruct (finditer line_pattern line); reflexivity.
Qed.

(** Two coordinates on one line: the pattern has two matches there, and
    only the first one becomes a record. *)
Lemma two_coordinates_one_record :
  map line_record (finditer line_pattern Sample.two_coordinates_line)
  = [ {| groupId := Some "org.a"; artifactId := Some "first";
         version := Some "1.0" |};
      {| groupId := Some "org.b"; artifactId := Some "second";
         version := Some "2.0" |} ] /\
  gradle_line Sample.two_coordinates_line
  = [ {| groupId := Some "org.a"; artifactId := Some "first";
         version := Some "1.0" |} ].
Proof. split; vm_compute; reflexivity. Qed.

Lemma gradle_line_length (line : string) :
  (length (gradle_line line) <= 1)%nat.
Proof.
  rewrite gradle_line_first_match.
  destruct (mentions_dependency line); [|simpl; lia].
  destruct (finditer line_pattern line); simpl; lia.
Qed.

(** C10: [parse_gradle_file] returns the records of the lines of the
    file, one line after the other, and a line gives at most one record:
    the one of the first match of the pattern on that line, whatever
    further matches the line has. *)
Theorem parse_gradle_file_one_record_per_line
    (fs : filesystem) (path line : string) :
  match read_text fs path with
  | inr content =>
      parse_gradle_file fs path
      = Returned [] (flat_map gradle_line (file_lines content))
  | inl e => parse_gradle_file fs path = Raised [] e
  end /\
  (length (gradle_line line) <= 1)%nat /\
  gradle_line line
  = if mentions_dependency line
    then match finditer line_pattern line with
         | m :: _ => [line_record m]
         | [] => []
         end
    else [].
Proof.
  split; [|split].
  - unfold parse_gradle_file. destruct (read_text fs path); reflexivity.
  - apply gradle_line_length.
  - apply gradle_line_first_match.
Qed.

Lemma flat_map_length_bound {A B} (f : A -> list B) (l : list A) :
  (forall a, length (f a) <= 1)%nat ->
  (length (flat_map f l) <= length l)%nat.
Proof.
  intros H. induction l as [|a l IH]; simpl; [lia|].
  rewrite length_app. specialize (H a). lia.
Qed.

(** Hence a file gives no more records than it has lines. *)
Lemma parse_gradle_file_bounded fs path out deps content :
  read_text fs path = inr content ->
  parse_gradle_file fs path = Returned out deps ->
  (length deps <= length (file_lines content))%nat.
Proof.
  intros R H. unfold parse_gradle_file in H. rewrite R in H.
  inversion H; subst. apply flat_map_length_bound, gradle_line_length.
Qed.

(* ================================================================= *)
(** ** The scan of a directory tree *)

(** The loop over the files stops at the first descriptor of the
    listing and does with it what it would do were it alone. *)
Lemma scan_files_descriptor fs root d post pd :
  is_descriptor d = true ->
  scan_files fs root (d :: post) pd
  = match parse_descriptor fs root d with
    | Returned out deps =>
        Returned (found_line root d :: out) (record_deps root deps pd)
    | Raised out e => Raised (found_line root d :: out) e
    end.
Proof.
  unfold is_descriptor, parse_descriptor, found_line. intros D. simpl.
  destruct (is_pom d).
  - destruct (parse_maven_pom fs (os_path_join root d)); simpl;
      rewrite ?app_nil_r; reflexivity.
  - simpl in D. rewrite D.
    destruct (parse_gradle_build_file fs (os_path_join root d)); simpl;
      rewrite ?app_nil_r; reflexivity.
Qed.

Lemma scan_files_skip fs root pre rest pd :
  forallb (fun f => negb (is_descriptor f)) pre = true ->
  scan_files fs root (pre ++ rest) pd = scan_files fs root rest pd.
Proof.
  induction pre as [|f pre IH]; simpl; intros H; [reflexivity|].
  apply andb_prop in H. destruct H as [Hf Hpre].
  unfold is_descriptor in Hf. apply negb_true_iff, orb_false_elim in Hf.
  destruct Hf as [-> ->]. now apply IH.
Qed.

(** A directory leaves the mapping as it is or puts a non-empty
    sequence under its own path. *)
Lemma scan_files_effect fs root files pd :
  match scan_files fs root files pd with
  | Returned _ pd' =>
      pd' = pd \/ exists deps, deps <> [] /\ pd' = Dict.set root deps pd
  | Raised _ _ => True
  end.
Proof.
  induction files as [|f files IH]; simpl; [now left|].
  destruct (is_descriptor f) eqn:D.
  - pose proof (scan_files_descriptor fs root f files pd D) as E.
    simpl in E. rewrite E. clear E.
    destruct (parse_descriptor fs root f) as [out deps|out e] eqn:P.
    + destruct deps as [|r deps]; simpl; [now left|].
      right. exists (r :: deps). split; [discriminate|reflexivity].
    + exact I.
  - unfold is_descriptor in D. apply orb_false_elim in D.
    destruct D as [-> ->]. exact IH.
Qed.

Lemma scan_files_populated fs root files pd :
  Forall populated_entry pd ->
  match scan_files fs root files pd with
  | Returned _ pd' => Forall populated_entry pd'
  | Raised _ _ => True
  end.
Proof.
  intros F. pose proof (scan_files_effect fs root files pd) as E.
  destruct (scan_files fs root files pd) as [out pd'|out e]; [|exact E].
  destruct E as [->|[deps [N ->]]]; [exact F|].
  now apply set_Forall.
Qed.

Lemma scan_walk_populated fs walk : forall pd,
  Forall populated_entry pd ->
  match scan_walk fs walk pd with
  | Returned _ report => Forall populated_entry report
  | Raised _ _ => True
  end.
Proof.
  induction walk as [|e walk IH]; intros pd F; simpl; [exact F|].
  pose proof (scan_files_populated fs (entry_root e) (entry_files e) pd F) as S.
  destruct (scan_files fs (entry_root e) (entry_files e) pd) as [out pd'|out x];
    simpl; [|exact S].
  specialize (IH pd' S).
  destruct (scan_walk fs walk pd'); exact IH.
Qed.

(** *** The report *)

Lemma project_lines_populated clone_dir entry :
  populated_entry entry ->
  project_lines clone_dir entry = populated_lines clone_dir entry.
Proof.
  destruct entry as [path [|d deps]]; unfold populated_entry; simpl;
    [intros N; now elim N|reflexivity].
Qed.

Lemma report_lines_populated clone_dir report :
  Forall populated_entry report ->
  report_lines clone_dir report = flat_map (populated_lines clone_dir) report.
Proof.
  unfold report_lines. induction 1 as [|entry report P F IH]; simpl;
    [reflexivity|].
  now rewrite IH, project_lines_populated.
Qed.

Lemma marker_not_in_populated_lines clone_dir entry :
  ~ In no_dependencies_line (populated_lines clone_dir entry).
Proof.
  unfold populated_lines. simpl. intros [H|H].
  - unfold project_line in H. discriminate H.
  - apply in_map_iff in H. destruct H as [d [H _]].
    unfold dependency_line in H. discriminate H.
Qed.

Lemma marker_not_in_report clone_dir report :
  Forall populated_entry report ->
  ~ In no_dependencies_line (report_lines clone_dir report).
Proof.
  intros F. rewrite report_lines_populated by exact F.
  intros H. apply in_flat_map in H. destruct H as [entry [_ H]].
  now apply marker_not_in_populated_lines in H.
Qed.

(** A manifest without dependencies leaves no entry. *)
Lemma empty_manifest_leaves_no_entry :
  generate_dependency_report
    (Sample.disk [("repo/pom.xml", Sample.xml_file "<project/>"
                                     (Elem "project" None []))])
    "repo" (Dir [] ["pom.xml"])
  = Returned ["Found Maven project: repo/pom.xml"] [].
Proof. vm_compute. reflexivity. Qed.

(** *** Which descriptor of a directory is read *)

Lemma scan_files_keeps_other_paths fs root files pd out pd' key :
  scan_files fs root files pd = Returned out pd' ->
  key <> root ->
  Dict.lookup key pd' = Dict.lookup key pd.
Proof.
  intros S N. pose proof (scan_files_effect fs root files pd) as E.
  rewrite S in E. destruct E as [->|[deps [_ ->]]]; [reflexivity|].
  now apply lookup_set_other.
Qed.

Lemma scan_walk_keeps_other_paths fs walk key : forall pd out report,
  scan_walk fs walk pd = Returned out report ->
  ~ In key (map entry_root walk) ->
  Dict.lookup key report = Dict.lookup key pd.
Proof.
  induction walk as [|e walk IH]; simpl; intros pd out report S N.
  - inversion S; subst. reflexivity.
  - apply bind_returned in S. destruct S as [o1 [pd1 [o2 [S1 [S2 _]]]]].
    rewrite (IH pd1 o2 report S2) by tauto.
    apply (scan_files_keeps_other_paths fs _ _ _ _ _ _ S1).
    intros E. apply N. now left.
Qed.

Lemma scan_walk_app fs walk1 : forall walk2 pd out report,
  scan_walk fs (walk1 ++ walk2) pd = Returned out report ->
  exists o1 pd1 o2,
    scan_walk fs walk1 pd = Returned o1 pd1 /\
    scan_walk fs walk2 pd1 = Returned o2 report.
Proof.
  induction walk1 as [|e walk1 IH]; simpl; intros walk2 pd out report S.
  - now exists [], pd, out.
  - apply bind_returned in S. destruct S as [o1 [pd1 [o2 [S1 [S2 _]]]]].
    destruct (IH walk2 pd1 o2 report S2) as [o3 [pd2 [o4 [S3 S4]]]].
    exists (o1 ++ o3), pd2, o4. split; [|exact S4].
    rewrite S1. simpl. now rewrite S3.
Qed.

Lemma lookup_record_deps root deps pd :
  Dict.lookup root pd = None ->
  Dict.lookup root (record_deps root deps pd)
  = match deps with
    | [] => None
    | _ :: _ => Some deps
    end.
Proof.
  intros N. destruct deps; simpl; [exact N|apply lookup_set_same].
Qed.

(** C1 as stated fails: with the build file listed before the manifest,
    [generate_dependency_report] records the dependency of the build file
    and not the one of the manifest; and the loop of the multi-repo
    script reads both files of the directory. *)
Lemma build_file_listed_first_is_read :
  generate_dependency_report (Sample.both_descriptors "cloned_repo002")
    "cloned_repo002" Sample.gradle_first
  = Returned ["Found Gradle project: cloned_repo002/build.gradle"]
      [("cloned_repo002", [Sample.tool])]
  /\
  parse_maven_pom (Sample.both_descriptors "cloned_repo002")
    "cloned_repo002/pom.xml"
  = Returned [] [Sample.lib "1.0.0"]
  /\
  [Sample.tool] <> [Sample.lib "1.0.0"]
  /\
  collect_walk Sample.relpath_below (Sample.both_descriptors "/tmp/repo")
    "repo" "/tmp/repo" (os_walk "/tmp/repo" Sample.pom_first) []
  = Returned []
      [ {| Repository := "repo"; File := "pom.xml";
           Group_ID := Some "com.example"; Artifact_ID := Some "lib";
           Version := Some "1.0.0" |};
        {| Repository := "repo"; File := "build.gradle";
           Group_ID := Some "org.other"; Artifact_ID := Some "tool";
           Version := Some "3.1" |} ].
Proof. repeat split; try (vm_compute; reflexivity). discriminate. Qed.

(** C1 (amended): in [generate_dependency_report], a directory that is
    walked once records dependency records only from the first
    descriptor in the order in which its files are listed, be it
    [pom.xml] or a file whose name ends in build.gradle or
    build.gradle.kts: the entry of the directory in the returned mapping
    is what the parser of that first descriptor returns, and there is no
    entry when it returns the empty sequence.  So the records come from
    [pom.xml] exactly when it is listed before every such build file. *)
Theorem first_descriptor_wins
    (fs : filesystem) (repo_path : string) (tree : dir_tree)
    (walk1 walk2 : list walk_entry) (root : string) (dirs pre post : list string)
    (d : string) (out : list string) (report : Dict.t (list dep)) :
  os_walk repo_path tree = walk1 ++ (root, dirs, pre ++ d :: post) :: walk2 ->
  ~ In root (map entry_root (walk1 ++ walk2)) ->
  forallb (fun f => negb (is_descriptor f)) pre = true ->
  is_descriptor d = true ->
  generate_dependency_report fs repo_path tree = Returned out report ->
  exists out' deps,
    parse_descriptor fs root d = Returned out' deps /\
    Dict.lookup root report
    = match deps with
      | [] => None
      | _ :: _ => Some deps
      end.
Proof.
  intros W U Pre D G. unfold generate_dependency_report in G. rewrite W in G.
  rewrite map_app, in_app_iff in U.
  apply scan_walk_app in G. destruct G as [o1 [pd1 [o2 [G1 G2]]]].
  simpl in G2. apply bind_returned in G2.
  destruct G2 as [o3 [pd2 [o4 [S [G2 _]]]]].
  unfold entry_root, entry_files in S. simpl in S.
  rewrite (scan_files_skip fs root pre (d :: post) pd1 Pre) in S.
  rewrite (scan_files_descriptor fs root d post pd1 D) in S.
  destruct (parse_descriptor fs root d) as [out' deps|out' e]; [|discriminate].
  exists out', deps. split; [reflexivity|].
  inversion S; subst; clear S.
  rewrite (scan_walk_keeps_other_paths fs walk2 root _ _ _ G2) by tauto.
  apply lookup_record_deps.
  rewrite (scan_walk_keeps_other_paths fs walk1 root _ _ _ G1) by tauto.
  reflexivity.
Qed.

Lemma first_descriptor_wins_witness :
  exists out' deps,
    parse_descriptor (Sample.both_descriptors "cloned_repo002")
      "cloned_repo002" "pom.xml" = Returned out' deps /\
    Dict.lookup "cloned_repo002" [("cloned_repo002", [Sample.lib "1.0.0"])]
    = match deps with
      | [] => None
      | _ :: _ => Some deps
      end.
Proof.
  apply (first_descriptor_wins (Sample.both_descriptors "cloned_repo002")
           "cloned_repo002" Sample.pom_first [] [] "cloned_repo002" [] []
           ["build.gradle"] "pom.xml"
           ["Found Maven project: cloned_repo002/pom.xml"]).
  - reflexivity.
  - simpl. tauto.
  - reflexivity.
  - reflexivity.
  - vm_compute. reflexivity.
Defined.

(* ================================================================= *)
(** ** Writing the CSV report and reading it back *)

Section CsvRoundTrip.

Import Csv.

Lemma read_step r rows il c t r1 :
  process_char r (Ch c) = Some r1 ->
  ends_line c t = false ->
  read_from r rows il (String c t) = read_from r1 rows true t.
Proof. intros P E. simpl. now rewrite P, E. Qed.

Lemma read_step_eol r rows il c t r1 r2 rows' :
  process_char r (Ch c) = Some r1 ->
  ends_line c t = true ->
  end_of_line r1 rows = Some (r2, rows') ->
  read_from r rows il (String c t) = read_from r2 rows' false t.
Proof. intros P E L. simpl. now rewrite P, E, L. Qed.

Lemma special_false c :
  special c = false ->
  Ascii.eqb c delimiter = false /\ Ascii.eqb c dquote = false /\
  Ascii.eqb c CR = false /\ Ascii.eqb c LF = false.
Proof.
  unfold special. intros H.
  apply orb_false_elim in H. destruct H as [H H4].
  apply orb_false_elim in H. destruct H as [H H3].
  apply orb_false_elim in H. destruct H as [H1 H2]. auto.
Qed.

Lemma ends_line_plain c t :
  Ascii.eqb c CR = false -> Ascii.eqb c LF = false -> ends_line c t = false.
Proof. unfold ends_line. now intros -> ->. Qed.

(** Inside a quoted field the end of a line changes nothing. *)
Lemma quoted_char c fld flds rows il t :
  Ascii.eqb c dquote = false ->
  exists il',
    read_from (mkreader IN_QUOTED_FIELD fld flds) rows il (String c t)
    = read_from (mkreader IN_QUOTED_FIELD (Str.cat fld (String c EmptyString)) flds)
        rows il' t.
Proof.
  intros Q. destruct (ends_line c t) eqn:E.
  - exists false.
    eapply read_step_eol;
      [unfold process_char; simpl; rewrite Q; reflexivity|exact E|reflexivity].
  - exists true.
    eapply read_step;
      [unfold process_char; simpl; rewrite Q; reflexivity|exact E].
Qed.

(** The characters of a quoted field up to its closing quote. *)
Lemma quoted_body s : forall fld flds rows il rest,
  read_from (mkreader IN_QUOTED_FIELD fld flds) rows il
    (Str.cat (escaped s) (String dquote rest))
  = read_from (mkreader QUOTE_IN_QUOTED_FIELD (Str.cat fld s) flds) rows true rest.
Proof.
  induction s as [|c s IH]; intros fld flds rows il rest.
  - simpl. rewrite cat_empty_r. reflexivity.
  - simpl. destruct (Ascii.eqb c dquote) eqn:Q.
    + apply Ascii.eqb_eq in Q. subst c. rewrite !cat_cons.
      erewrite read_step; [|reflexivity|reflexivity].
      erewrite read_step; [|reflexivity|reflexivity].
      unfold goto, add_char. simpl. rewrite IH. now rewrite cat_assoc.
    + rewrite cat_cons.
      destruct (quoted_char c fld flds rows il
                  (Str.cat (escaped s) (String dquote rest)) Q) as [il' ->].
      rewrite IH. now rewrite cat_assoc.
Qed.

(** The characters of a field that needs no quotes. *)
Lemma plain_body s : forall fld flds rows il t,
  needs_quotes s = false ->
  read_from (mkreader IN_FIELD fld flds) rows il (Str.cat s t)
  = read_from (mkreader IN_FIELD (Str.cat fld s) flds) rows
      (match s with EmptyString => il | String _ _ => true end) t.
Proof.
  induction s as [|c s IH]; intros fld flds rows il t N.
  - simpl. now rewrite cat_empty_r.
  - simpl in N. apply orb_false_elim in N. destruct N as [Sc N].
    destruct (special_false c Sc) as [D [Q [Rc Lc]]].
    rewrite cat_cons.
    erewrite read_step;
      [|unfold process_char; simpl; rewrite Rc, Lc, D; reflexivity
       |now apply ends_line_plain].
    unfold add_char. simpl. rewrite (IH _ _ _ _ _ N).
    rewrite cat_assoc. simpl. now destruct s.
Qed.

(** The end of a record once its last field is saved. *)
Lemma after_record flds rows il rest :
  read_from (mkreader EAT_CRNL EmptyString flds) rows il (String LF rest)
  = read_from reset (rows ++ [flds]) false rest.
Proof. reflexivity. Qed.

(** From the start of a field, a character that is no newline is taken
    the same way at the start of a record. *)
Lemma fresh_char s0 flds c :
  fresh s0 ->
  Ascii.eqb c CR = false -> Ascii.eqb c LF = false ->
  process_char (mkreader s0 EmptyString flds) (Ch c)
  = start_field (mkreader s0 EmptyString flds) (Ch c).
Proof.
  intros [->| ->] Rc Lc; unfold process_char; simpl; [|reflexivity].
  now rewrite Rc, Lc.
Qed.

(** A written field and the delimiter after it. *)
Lemma field_then_delimiter f s0 flds rows il rest :
  fresh s0 ->
  read_from (mkreader s0 EmptyString flds) rows il
    (Str.cat (write_field f) (String delimiter rest))
  = read_from (mkreader START_FIELD EmptyString (flds ++ [f])) rows true rest.
Proof.
  intros F. unfold write_field. destruct (needs_quotes f) eqn:N.
  - unfold quoted. rewrite cat_cons, cat_assoc, cat_cons.
    erewrite read_step;
      [|rewrite fresh_char by (exact F || reflexivity); reflexivity|reflexivity].
    unfold goto. simpl. rewrite quoted_body.
    erewrite read_step; [|reflexivity|reflexivity].
    reflexivity.
  - destruct f as [|c f].
    + change (Str.cat EmptyString (String delimiter rest))
        with (String delimiter rest).
      erewrite read_step;
        [|rewrite fresh_char by (exact F || reflexivity); reflexivity|reflexivity].
      reflexivity.
    + simpl in N. apply orb_false_elim in N. destruct N as [Sc N].
      destruct (special_false c Sc) as [D [Q [Rc Lc]]].
      rewrite cat_cons.
      erewrite read_step;
        [|rewrite fresh_char by assumption; unfold start_field;
          rewrite Rc, Lc, Q, D; reflexivity
         |now apply ends_line_plain].
      unfold add_char. simpl. rewrite (plain_body f _ _ _ _ _ N).
      erewrite read_step; [|reflexivity|reflexivity]. reflexivity.
Qed.

(** The last written field of a record and the line terminator. *)
Lemma field_then_crlf f s0 flds rows il rest :
  s0 = START_FIELD \/ (s0 = START_RECORD /\ write_field f <> EmptyString) ->
  read_from (mkreader s0 EmptyString flds) rows il
    (Str.cat (write_field f) (Str.cat CRLF rest))
  = read_from reset (rows ++ [flds ++ [f]]) false rest.
Proof.
  intros F.
  assert (F' : fresh s0) by (unfold fresh; tauto).
  unfold write_field in *. destruct (needs_quotes f) eqn:N.
  - unfold quoted. rewrite cat_cons, cat_assoc, cat_cons.
    erewrite read_step;
      [|rewrite fresh_char by (exact F' || reflexivity); reflexivity|reflexivity].
    unfold goto. simpl. rewrite quoted_body.
    unfold CRLF. rewrite ?cat_cons.
    erewrite read_step; [|reflexivity|reflexivity].
    apply after_record.
  - destruct f as [|c f].
    + destruct F as [->|[_ F]]; [|now elim F].
      unfold CRLF. simpl. reflexivity.
    + simpl in N. apply orb_false_elim in N. destruct N as [Sc N].
      destruct (special_false c Sc) as [D [Q [Rc Lc]]].
      rewrite cat_cons.
      erewrite read_step;
        [|rewrite fresh_char by assumption; unfold start_field;
          rewrite Rc, Lc, Q, D; reflexivity
         |now apply ends_line_plain].
      unfold add_char. simpl. rewrite (plain_body f _ _ _ _ _ N).
      unfold CRLF. rewrite ?cat_cons.
      erewrite read_step; [|reflexivity|reflexivity].
      apply after_record.
Qed.

Lemma cat_not_empty a c b : Str.cat a (String c b) <> EmptyString.
Proof. destruct a; discriminate. Qed.

(** The fields of a record, joined, and the line terminator. *)
Lemma fields_then_crlf more : forall f s0 flds rows il rest,
  s0 = START_FIELD \/
  (s0 = START_RECORD /\ join_fields (f :: more) <> EmptyString) ->
  read_from (mkreader s0 EmptyString flds) rows il
    (Str.cat (join_fields (f :: more)) (Str.cat CRLF rest))
  = read_from reset (rows ++ [flds ++ f :: more]) false rest.
Proof.
  induction more as [|f2 more IH]; intros f s0 flds rows il rest F.
  - simpl in *. now apply field_then_crlf.
  - change (join_fields (f :: f2 :: more))
      with (Str.cat (write_field f) (String delimiter (join_fields (f2 :: more)))).
    rewrite cat_assoc, cat_cons.
    rewrite field_then_delimiter by (unfold fresh; tauto).
    rewrite IH by now left.
    now rewrite <- app_assoc.
Qed.

Lemma join_fields_empty f more :
  join_fields (f :: more) = EmptyString -> f = EmptyString /\ more = [].
Proof.
  destruct more as [|f2 more].
  - simpl. unfold write_field. destruct (needs_quotes f); [discriminate|].
    auto.
  - change (join_fields (f :: f2 :: more))
      with (Str.cat (write_field f) (String delimiter (join_fields (f2 :: more)))).
    intros H. now apply cat_not_empty in H.
Qed.

(** One written record is read as one record. *)
Lemma read_written_row fields rows il rest :
  read_from reset rows il (Str.cat (writerow fields) rest)
  = read_from reset (rows ++ [fields]) false rest.
Proof.
  unfold writerow. rewrite cat_assoc. destruct fields as [|f more].
  - reflexivity.
  - unfold record_text.
    destruct (join_fields (f :: more)) eqn:J.
    + apply join_fields_empty in J. destruct J as [-> ->]. reflexivity.
    + rewrite <- J. apply fields_then_crlf. right. split; [reflexivity|].
      rewrite J. discriminate.
Qed.

Lemma read_written_rows records : forall rows,
  read_from reset rows false (writerows records) = Some (rows ++ records).
Proof.
  induction records as [|r records IH]; intros rows; simpl.
  - now rewrite app_nil_r.
  - rewrite read_written_row, IH. now rewrite <- app_assoc.
Qed.

(** The reader gives back the records that the writer wrote. *)
Lemma csv_read_write (records : list (list string)) :
  read (writerows records) = Some records.
Proof. apply read_written_rows. Qed.

End CsvRoundTrip.

Lemma report_records_nonempty (rows : list row) :
  List.filter Csv.nonempty (map (fun r => map Csv.cell (row_values r)) rows)
  = map (fun r => map Csv.cell (row_values r)) rows.
Proof.
  induction rows as [|r rows IH]; [reflexivity|].
  cbn [map List.filter]. unfold row_values at 1. cbn [map Csv.nonempty].
  now rewrite IH.
Qed.

Lemma coordinates_read_back (r : row) :
  all_strings r = true ->
  dict_coordinates (Csv.zip_row csv_columns (map Csv.cell (row_values r)) Dict.empty)
  = row_coordinates r.
Proof.
  destruct r as [repo file [g|] [a|] [v|]]; try discriminate.
  intros _. reflexivity.
Qed.

(** C8 as stated fails: a row with a value that is [None] (the text of
    an element without character data, as in a manifest with an empty
    groupId element) is written with an empty column and read back with
    the empty text in its place. *)
Lemma none_is_read_back_as_empty_text :
  report_csv [Sample.row_without_group]
  = Str.cat "Repository,File,Group ID,Artifact ID,Version"
      (Str.cat Csv.CRLF (Str.cat "repo,pom.xml,,a,1.0" Csv.CRLF)) /\
  read_back (report_csv [Sample.row_without_group])
  = Some [(Some "repo", Some EmptyString, Some "a", Some "1.0")] /\
  map row_coordinates [Sample.row_without_group]
  = [(Some "repo", None, Some "a", Some "1.0")] /\
  ~ Permutation [(Some "repo", Some EmptyString, Some "a", Some "1.0")]
                (map row_coordinates [Sample.row_without_group]).
Proof.
  repeat split; try (vm_compute; reflexivity).
  intros P. apply Permutation_length_1 in P. discriminate P.
Qed.

(** C8 (amended): for every collection of rows all of whose values are
    texts (none is [None]), reading the written CSV report back with the
    reader of the [csv] module gives the (repository, group, artifact,
    version) tuples of the collection, in the same order. *)
Theorem report_csv_round_trip (rows : list row) :
  forallb all_strings rows = true ->
  read_back (report_csv rows) = Some (map row_coordinates rows).
Proof.
  intros A. unfold read_back, Csv.DictReader, report_csv.
  change (Str.cat (Csv.writerow csv_columns)
            (Csv.writerows (map (fun r => map Csv.cell (row_values r)) rows)))
    with (Csv.writerows
            (csv_columns :: map (fun r => map Csv.cell (row_values r)) rows)).
  rewrite csv_read_write. unfold Csv.dict_rows.
  rewrite report_records_nonempty. f_equal.
  rewrite !map_map. apply map_ext_in. intros r Hr.
  apply coordinates_read_back.
  rewrite forallb_forall in A. now apply A.
Qed.

Lemma report_csv_round_trip_witness :
  read_back (report_csv [Sample.row_with_commas])
  = Some (map row_coordinates [Sample.row_with_commas]).
Proof.
  apply (report_csv_round_trip [Sample.row_with_commas]).
  reflexivity.
Defined.

(* ================================================================= *)
(** ** More on the structured-manifest parsers *)

Lemma read_properties_absent root x :
  (forall pn q, find root "properties" = Some pn ->
                In q (children pn) -> tag_name q <> x) ->
  Dict.lookup x (read_properties root) = None.
Proof.
  intros N. unfold read_properties.
  destruct (find root "properties") as [pn|]; [|reflexivity].
  rewrite (lookup_after_assignments tag_name text x (children pn)).
  - reflexivity.
  - intros q Hq. now apply (N pn q).
Qed.

(** The records of [parse_maven_pom] around the record of one
    dependency element. *)
Lemma parse_maven_pom_around fs path content root dn ds1 d ds2 r :
  fs path = Readable content (WellFormed root) ->
  find root "dependencies" = Some dn ->
  findall dn "dependency" = ds1 ++ d :: ds2 ->
  maven_record (read_properties root) (read_parent_version root) d = Some r ->
  parse_maven_pom fs path
  = Returned []
      (filter_map (maven_record (read_properties root) (read_parent_version root)) ds1
       ++ r :: filter_map (maven_record (read_properties root)
                             (read_parent_version root)) ds2).
Proof.
  intros Hfs Hdn Hds Hr. unfold parse_maven_pom, ET_parse. rewrite Hfs.
  unfold ret. f_equal.
  rewrite (maven_dependencies_around root dn ds1 d ds2 Hdn Hds).
  f_equal. simpl. now rewrite Hr.
Qed.

(** X1: when the version of a dependency is a reference to a property
    that no entry of the properties block defines (or there is no such
    block), [parse_maven_pom] reports the version UNKNOWN. *)
Theorem parse_maven_pom_unknown_property
    (fs : filesystem) (path content : string)
    (root dn d g a v : Element) (ds1 ds2 : list Element) (x : string) :
  fs path = Readable content (WellFormed root) ->
  (forall pn q, find root "properties" = Some pn ->
                In q (children pn) -> tag_name q <> x) ->
  find root "dependencies" = Some dn ->
  findall dn "dependency" = ds1 ++ d :: ds2 ->
  find d "groupId" = Some g ->
  find d "artifactId" = Some a ->
  find d "version" = Some v ->
  text v = Some (reference x) ->
  let record := maven_record (read_properties root) (read_parent_version root) in
  parse_maven_pom fs path
  = Returned []
      (filter_map record ds1
       ++ {| groupId := text g; artifactId := text a; version := Some "UNKNOWN" |}
       :: filter_map record ds2).
Proof.
  intros Hfs Hno Hdn Hds Hg Ha Hv Hr record.
  apply (parse_maven_pom_around fs path content root dn ds1 d ds2 _ Hfs Hdn Hds).
  unfold maven_record, resolve_version. rewrite Hg, Ha, Hv, Hr.
  rewrite reference_is_reference, reference_name.
  unfold Dict.get. rewrite (read_properties_absent root x Hno). reflexivity.
Qed.

Lemma parse_maven_pom_unknown_property_witness :
  parse_maven_pom (Sample.disk [("pom.xml", Case.pom_unknown_property)]) "pom.xml"
  = Returned [] ([] ++ Sample.lib "UNKNOWN" :: []).
Proof.
  refine (parse_maven_pom_unknown_property _ "pom.xml" _ _
            Case.dependencies_unknown
            (Sample.lib_dependency [Sample.leaf "version" "${lib.version}"])
            (Sample.leaf "groupId" "com.example")
            (Sample.leaf "artifactId" "lib")
            (Sample.leaf "version" "${lib.version}")
            [] [] "lib.version" _ _ _ _ _ _ _ _);
    try reflexivity.
  intros pn q H. discriminate H.
Defined.

(** X2: when a dependency has no version element and the manifest gives
    no parent version (no parent, no version in it, or one without
    text), [parse_maven_pom] reports the version N/A. *)
Theorem parse_maven_pom_no_version
    (fs : filesystem) (path content : string)
    (root dn d g a : Element) (ds1 ds2 : list Element) :
  fs path = Readable content (WellFormed root) ->
  Str.truthy (read_parent_version root) = false ->
  find root "dependencies" = Some dn ->
  findall dn "dependency" = ds1 ++ d :: ds2 ->
  find d "groupId" = Some g ->
  find d "artifactId" = Some a ->
  find d "version" = None ->
  let record := maven_record (read_properties root) (read_parent_version root) in
  parse_maven_pom fs path
  = Returned []
      (filter_map record ds1
       ++ {| groupId := text g; artifactId := text a; version := Some "N/A" |}
       :: filter_map record ds2).
Proof.
  intros Hfs Hpv Hdn Hds Hg Ha Hv record.
  apply (parse_maven_pom_around fs path content root dn ds1 d ds2 _ Hfs Hdn Hds).
  unfold maven_record, resolve_version. rewrite Hg, Ha, Hv, Hpv. reflexivity.
Qed.

Lemma parse_maven_pom_no_version_witness :
  parse_maven_pom (Sample.disk [("pom.xml", Case.pom_parent_without_version)])
    "pom.xml"
  = Returned [] ([] ++ Sample.lib "N/A" :: []).
Proof.
  refine (parse_maven_pom_no_version _ "pom.xml" _ _
            (Sample.el "dependencies" None [Sample.lib_dependency []])
            (Sample.lib_dependency [])
            (Sample.leaf "groupId" "com.example")
            (Sample.leaf "artifactId" "lib")
            [] [] _ _ _ _ _ _ _);
    reflexivity.
Defined.

(** X3: a dependency element that lacks a groupId or an artifactId gives
    no record, in [parse_maven_pom] and in [parse_pom] alike: the records
    are those of the other dependency elements. *)
Theorem unidentified_dependency_is_skipped
    (fs : filesystem) (path content : string)
    (root dn d : Element) (ds1 ds2 es1 es2 : list Element) :
  fs path = Readable content (WellFormed root) ->
  find d "groupId" = None \/ find d "artifactId" = None ->
  find root "dependencies" = Some dn ->
  findall dn "dependency" = ds1 ++ d :: ds2 ->
  findall_deep root "dependencies" "dependency" = es1 ++ d :: es2 ->
  let record := maven_record (read_properties root) (read_parent_version root) in
  parse_maven_pom fs path
  = Returned [] (filter_map record ds1 ++ filter_map record ds2) /\
  parse_pom fs path
  = Returned [] (filter_map pom_record es1 ++ filter_map pom_record es2).
Proof.
  intros Hfs Hd Hdn Hds Hes record. split.
  - unfold parse_maven_pom, ET_parse. rewrite Hfs. unfold ret. f_equal.
    rewrite (maven_dependencies_around root dn ds1 d ds2 Hdn Hds).
    f_equal. simpl. fold record.
    assert (E : record d = None).
    { unfold record, maven_record. destruct Hd as [-> | ->]; [reflexivity|].
      now destruct (find d "groupId"). }
    now rewrite E.
  - unfold parse_pom, ET_parse. rewrite Hfs. unfold ret. f_equal.
    unfold pom_dependencies. rewrite Hes, filter_map_app. f_equal. simpl.
    assert (E : pom_record d = None).
    { unfold pom_record. destruct Hd as [-> | ->]; [reflexivity|].
      now destruct (find d "groupId"). }
    now rewrite E.
Qed.

Lemma unidentified_dependency_is_skipped_witness :
  parse_maven_pom (Sample.disk [("pom.xml", Case.pom_unidentified)]) "pom.xml"
  = Returned [] ([] ++ [Sample.lib "1.0.0"]) /\
  parse_pom (Sample.disk [("pom.xml", Case.pom_unidentified)]) "pom.xml"
  = Returned [] ([] ++ [Sample.lib "1.0.0"]).
Proof.
  refine (unidentified_dependency_is_skipped _ "pom.xml" _ _
            (Sample.el "dependencies" None [Case.nameless; Case.plain])
            Case.nameless [] [Case.plain] [] [Case.plain] _ _ _ _ _);
    try reflexivity.
  left. reflexivity.
Defined.

(** X4: property substitution is done once: when the last entry named
    [x] of the properties block is itself a reference to a property [y],
    [parse_maven_pom] reports that reference as the version, whatever
    [y] is set to. *)
Theorem parse_maven_pom_substitutes_once
    (fs : filesystem) (path content : string)
    (root pn p dn d g a v : Element) (before after ds1 ds2 : list Element)
    (x y : string) :
  fs path = Readable content (WellFormed root) ->
  find root "properties" = Some pn ->
  children pn = before ++ p :: after ->
  tag_name p = x ->
  text p = Some (reference y) ->
  (forall q, In q after -> tag_name q <> x) ->
  find root "dependencies" = Some dn ->
  findall dn "dependency" = ds1 ++ d :: ds2 ->
  find d "groupId" = Some g ->
  find d "artifactId" = Some a ->
  find d "version" = Some v ->
  text v = Some (reference x) ->
  let record := maven_record (read_properties root) (read_parent_version root) in
  parse_maven_pom fs path
  = Returned []
      (filter_map record ds1
       ++ {| groupId := text g; artifactId := text a;
             version := Some (reference y) |}
       :: filter_map record ds2).
Proof.
  intros Hfs Hpn Hch Hk Ht Hlast Hdn Hds Hg Ha Hv Hr record.
  apply (parse_maven_pom_around fs path content root dn ds1 d ds2 _ Hfs Hdn Hds).
  unfold maven_record. rewrite Hg, Ha.
  rewrite (resolve_reference _ _ d v x (Some (reference y)) Hv Hr).
  - reflexivity.
  - rewrite <- Ht. now apply (read_properties_last root pn before p after).
Qed.

Lemma parse_maven_pom_substitutes_once_witness :
  parse_maven_pom (Sample.disk [("pom.xml", Case.pom_chained_property)]) "pom.xml"
  = Returned [] ([] ++ Sample.lib "${y}" :: []).
Proof.
  refine (parse_maven_pom_substitutes_once _ "pom.xml" _ _
            Case.properties_chained
            (Sample.leaf "x" "${y}")
            (Sample.el "dependencies" None
               [Sample.lib_dependency [Sample.leaf "version" "${x}"]])
            (Sample.lib_dependency [Sample.leaf "version" "${x}"])
            (Sample.leaf "groupId" "com.example")
            (Sample.leaf "artifactId" "lib")
            (Sample.leaf "version" "${x}")
            [Sample.leaf "y" "1.0"] [] [] [] "x" "y" _ _ _ _ _ _ _ _ _ _ _ _);
    try reflexivity.
  intros q [].
Defined.

(** X5: a version text that is not empty and does not both start with
    the two characters of a reference and end with a closing brace is
    reported as it is written. *)
Theorem parse_maven_pom_literal_version
    (fs : filesystem) (path content : string)
    (root dn d g a v : Element) (ds1 ds2 : list Element) (s : string) :
  fs path = Readable content (WellFormed root) ->
  find root "dependencies" = Some dn ->
  findall dn "dependency" = ds1 ++ d :: ds2 ->
  find d "groupId" = Some g ->
  find d "artifactId" = Some a ->
  find d "version" = Some v ->
  text v = Some s ->
  s <> EmptyString ->
  Str.startswith s "${" = false \/ Str.endswith s "}" = false ->
  let record := maven_record (read_properties root) (read_parent_version root) in
  parse_maven_pom fs path
  = Returned []
      (filter_map record ds1
       ++ {| groupId := text g; artifactId := text a; version := Some s |}
       :: filter_map record ds2).
Proof.
  intros Hfs Hdn Hds Hg Ha Hv Ht Hs Hshape record.
  apply (parse_maven_pom_around fs path content root dn ds1 d ds2 _ Hfs Hdn Hds).
  unfold maven_record, resolve_version. rewrite Hg, Ha, Hv, Ht.
  assert (T : Str.truthy (Some s) = true).
  { simpl. apply negb_true_iff, String.eqb_neq, Hs. }
  assert (R : is_property_reference (Some s) = false).
  { unfold is_property_reference. rewrite T.
    destruct Hshape as [-> | ->]; [reflexivity|].
    now destruct (Str.startswith s "${"). }
  rewrite R, T. reflexivity.
Qed.

Lemma parse_maven_pom_literal_version_witness :
  parse_maven_pom (Sample.disk [("pom.xml", Sample.pom_plain)]) "pom.xml"
  = Returned [] ([] ++ Sample.lib "1.0.0" :: []).
Proof.
  refine (parse_maven_pom_literal_version _ "pom.xml" _ _
            (Sample.el "dependencies" None
               [Sample.lib_dependency [Sample.leaf "version" "1.0.0"]])
            (Sample.lib_dependency [Sample.leaf "version" "1.0.0"])
            (Sample.leaf "groupId" "com.example")
            (Sample.leaf "artifactId" "lib")
            (Sample.leaf "version" "1.0.0")
            [] [] "1.0.0" _ _ _ _ _ _ _ _ _);
    try reflexivity.
  - discriminate.
  - left. reflexivity.
Defined.

(** *** Dependencies at any depth *)

Lemma descendants_children (e c : Element) :
  In c (children e) -> In c (descendants e).
Proof.
  destruct e as [t x cs]. simpl.
  induction cs as [|c' cs IH]; simpl; [tauto|].
  intros [->|H]; [now left|].
  right. apply in_or_app. right. now apply IH.
Qed.

Lemma filter_map_intro {A B} (f : A -> option B) (l : list A) (a : A) (b : B) :
  In a l -> f a = Some b -> In b (filter_map f l).
Proof.
  induction l as [|a' l IH]; simpl; [tauto|].
  intros [->|H] E.
  - rewrite E. now left.
  - destruct (f a'); [right|]; now apply IH.
Qed.

(** Every dependency element below a dependencies element of the
    document is one of those that [parse_pom] looks at. *)
Lemma findall_deep_intro root e d :
  In e (descendants root) ->
  tag e = qname "dependencies" ->
  In d (children e) ->
  tag d = qname "dependency" ->
  In d (findall_deep root "dependencies" "dependency").
Proof.
  intros He Te Hd Td. unfold findall_deep. apply in_flat_map.
  exists e. split.
  - apply filter_In. split; [exact He|]. rewrite Te. apply String.eqb_refl.
  - unfold findall. apply filter_In. split; [exact Hd|].
    rewrite Td. apply String.eqb_refl.
Qed.

Lemma find_is_child e local c :
  find e local = Some c -> In c (children e) /\ tag c = qname local.
Proof.
  unfold find. intros H. apply find_some in H. destruct H as [H T].
  split; [exact H|]. now apply String.eqb_eq.
Qed.

(** X6: [parse_pom] reports the dependencies of every dependencies
    element of the document, at any depth (under dependencyManagement or
    a profile as well): each of its dependency children with a groupId
    and an artifactId has its record in the result. *)
Theorem parse_pom_reads_every_depth
    (fs : filesystem) (path content : string) (root e d g a : Element) :
  fs path = Readable content (WellFormed root) ->
  In e (descendants root) ->
  tag e = qname "dependencies" ->
  In d (children e) ->
  tag d = qname "dependency" ->
  find d "groupId" = Some g ->
  find d "artifactId" = Some a ->
  exists deps r,
    parse_pom fs path = Returned [] deps /\ In r deps /\
    groupId r = text g /\ artifactId r = text a.
Proof.
  intros Hfs He Te Hd Td Hg Ha.
  unfold parse_pom, ET_parse. rewrite Hfs.
  eexists _, _. split; [reflexivity|]. split.
  - unfold pom_dependencies.
    apply (filter_map_intro pom_record _ d).
    + now apply (findall_deep_intro root e d).
    + unfold pom_record. rewrite Hg, Ha. reflexivity.
  - split; reflexivity.
Qed.

Lemma parse_pom_reads_every_depth_witness :
  exists deps r,
    parse_pom (Sample.disk [("pom.xml", Case.pom_managed)]) "pom.xml"
    = Returned [] deps /\ In r deps /\
    groupId r = text (Sample.leaf "groupId" "com.example") /\
    artifactId r = text (Sample.leaf "artifactId" "lib").
Proof.
  refine (parse_pom_reads_every_depth _ "pom.xml" _ _
            (Sample.el "dependencies" None [Case.plain]) Case.plain
            _ _ _ _ _ _ _ _ _);
    try reflexivity.
  - simpl. right. left. reflexivity.
  - simpl. left. reflexivity.
Defined.

(** X7: what [parse_maven_pom] reports, [parse_pom] reports too: for
    every record of the first there is a record of the second with the
    same groupId and artifactId (the versions may differ, since only the
    first resolves them). *)
Theorem parse_pom_covers_parse_maven_pom
    (fs : filesystem) (path : string) (out : list string) (deps : list dep)
    (r : dep) :
  parse_maven_pom fs path = Returned out deps ->
  In r deps ->
  exists out' deps' r',
    parse_pom fs path = Returned out' deps' /\ In r' deps' /\
    groupId r' = groupId r /\ artifactId r' = artifactId r.
Proof.
  intros P Hr. apply parse_maven_pom_returns in P.
  destruct P as [->|[root [Hfs ->]]]; [destruct Hr|].
  unfold maven_dependencies in Hr.
  destruct (find root "dependencies") as [dn|] eqn:Hdn; [|destruct Hr].
  apply filter_map_In in Hr. destruct Hr as [d [Hd Hrec]].
  apply find_is_child in Hdn. destruct Hdn as [Hdn Tdn].
  unfold findall in Hd. apply filter_In in Hd. destruct Hd as [Hd Td].
  apply String.eqb_eq in Td.
  unfold maven_record in Hrec.
  destruct (find d "groupId") as [g|] eqn:Hg; [|discriminate].
  destruct (find d "artifactId") as [a|] eqn:Ha; [|discriminate].
  inversion Hrec; subst r; clear Hrec. simpl.
  unfold parse_pom. rewrite Hfs.
  eexists _, _, _. split; [reflexivity|]. split.
  - unfold pom_dependencies. apply (filter_map_intro pom_record _ d).
    + apply (findall_deep_intro root dn d); auto.
      now apply descendants_children.
    + unfold pom_record. rewrite Hg, Ha. reflexivity.
  - split; reflexivity.
Qed.

Lemma parse_pom_covers_parse_maven_pom_witness :
  exists out' deps' r',
    parse_pom (Sample.disk [("pom.xml", Sample.pom_property)]) "pom.xml"
    = Returned out' deps' /\ In r' deps' /\
    groupId r' = groupId (Sample.lib "1.2.3") /\
    artifactId r' = artifactId (Sample.lib "1.2.3").
Proof.
  apply (parse_pom_covers_parse_maven_pom
           (Sample.disk [("pom.xml", Sample.pom_property)]) "pom.xml"
           [] [Sample.lib "1.2.3"]).
  - reflexivity.
  - left. reflexivity.
Defined.

(* ================================================================= *)
(** ** More on the scan of a directory tree *)

Lemma keys_set_present {V} (k : string) (v : V) (d : Dict.t V) :
  In k (Dict.keys d) -> Dict.keys (Dict.set k v d) = Dict.keys d.
Proof.
  unfold Dict.keys. induction d as [|[k' v'] d IH]; simpl; [tauto|].
  intros H. destruct (String.eqb k k') eqn:E; simpl.
  - apply String.eqb_eq in E. now subst.
  - f_equal. apply IH. destruct H as [H|H]; [|exact H].
    apply String.eqb_neq in E. now elim E.
Qed.

Lemma keys_set_absent {V} (k : string) (v : V) (d : Dict.t V) :
  ~ In k (Dict.keys d) -> Dict.keys (Dict.set k v d) = Dict.keys d ++ [k].
Proof.
  unfold Dict.keys. induction d as [|[k' v'] d IH]; simpl; [reflexivity|].
  intros H. destruct (String.eqb k k') eqn:E; simpl.
  - apply String.eqb_eq in E. subst. elim H. now left.
  - f_equal. apply IH. tauto.
Qed.

Lemma keys_set_invariant {V} (Q : string -> Prop) (k : string) (v : V)
    (d : Dict.t V) :
  Q k -> NoDup (Dict.keys d) /\ Forall Q (Dict.keys d) ->
  NoDup (Dict.keys (Dict.set k v d)) /\ Forall Q (Dict.keys (Dict.set k v d)).
Proof.
  intros Qk [N F]. destruct (in_dec string_dec k (Dict.keys d)) as [I|I].
  - rewrite keys_set_present by exact I. now split.
  - rewrite keys_set_absent by exact I. split.
    + apply NoDup_app; [exact N|repeat constructor; tauto|].
      intros x Hx [<-|[]]. exact (I Hx).
    + apply Forall_app. split; [exact F|now constructor].
Qed.

Lemma first_descriptor_none files :
  first_descriptor files = None <-> existsb is_descriptor files = false.
Proof.
  unfold first_descriptor. induction files as [|f files IH]; simpl; [tauto|].
  destruct (is_descriptor f); simpl; [split; discriminate|exact IH].
Qed.

Lemma first_descriptor_split files d :
  first_descriptor files = Some d ->
  exists pre post,
    files = pre ++ d :: post /\
    forallb (fun f => negb (is_descriptor f)) pre = true /\
    is_descriptor d = true.
Proof.
  unfold first_descriptor. induction files as [|f files IH]; simpl; [discriminate|].
  destruct (is_descriptor f) eqn:D.
  - intros H. inversion H; subst. now exists [], files.
  - intros H. destruct (IH H) as [pre [post [-> [P Dd]]]].
    exists (f :: pre), post. simpl. now rewrite D.
Qed.

Lemma scan_files_no_descriptor fs root files pd :
  first_descriptor files = None ->
  scan_files fs root files pd = Returned [] pd.
Proof.
  unfold first_descriptor. induction files as [|f files IH]; simpl; [reflexivity|].
  destruct (is_descriptor f) eqn:D; [discriminate|].
  unfold is_descriptor in D. apply orb_false_elim in D.
  destruct D as [-> ->]. exact IH.
Qed.

(** The loop over the files of a directory is the loop on its first
    descriptor alone. *)
Lemma scan_files_first fs root files d pd :
  first_descriptor files = Some d ->
  scan_files fs root files pd
  = match parse_descriptor fs root d with
    | Returned out deps =>
        Returned (found_line root d :: out) (record_deps root deps pd)
    | Raised out e => Raised (found_line root d :: out) e
    end.
Proof.
  intros F. destruct (first_descriptor_split files d F) as [pre [post [-> [P D]]]].
  rewrite (scan_files_skip fs root pre (d :: post) pd P).
  now apply scan_files_descriptor.
Qed.

Lemma scan_walk_keys fs all walk : forall pd,
  (forall e, In e walk -> In e all) ->
  NoDup (Dict.keys pd) /\ Forall (project_of all) (Dict.keys pd) ->
  match scan_walk fs walk pd with
  | Returned _ report =>
      NoDup (Dict.keys report) /\ Forall (project_of all) (Dict.keys report)
  | Raised _ _ => True
  end.
Proof.
  induction walk as [|e walk IH]; intros pd Sub Inv; simpl; [exact Inv|].
  assert (Step : match scan_files fs (entry_root e) (entry_files e) pd with
                 | Returned _ pd' =>
                     NoDup (Dict.keys pd') /\
                     Forall (project_of all) (Dict.keys pd')
                 | Raised _ _ => True
                 end).
  { destruct (first_descriptor (entry_files e)) as [d|] eqn:F.
    - rewrite (scan_files_first fs _ _ d pd F).
      destruct (parse_descriptor fs (entry_root e) d) as [out deps|out x];
        [|exact I].
      destruct deps as [|r deps]; [exact Inv|]. simpl.
      apply keys_set_invariant; [|exact Inv].
      exists e. split; [apply Sub; now left|]. split; [reflexivity|].
      destruct (existsb is_descriptor (entry_files e)) eqn:X; [reflexivity|].
      apply first_descriptor_none in X. congruence.
    - now rewrite (scan_files_no_descriptor fs _ _ pd F). }
  destruct (scan_files fs (entry_root e) (entry_files e) pd) as [out pd'|out x];
    simpl; [|exact I].
  assert (Sub' : forall e', In e' walk -> In e' all)
    by (intros e' H; apply Sub; now right).
  specialize (IH pd' Sub' Step).
  destruct (scan_walk fs walk pd'); [exact IH|exact I].
Qed.

(** X8: in the mapping that [generate_dependency_report] returns, every
    key is the path of a walked directory that lists a descriptor, that
    is a file named [pom.xml] or a file whose name ends in build.gradle
    or build.gradle.kts (the test on build files is one on the end of
    the name, so that a file named mybuild.gradle counts); a directory
    without such a file contributes nothing, and no path occurs twice. *)
Theorem report_keys_are_projects
    (fs : filesystem) (repo_path : string) (tree : dir_tree) :
  match generate_dependency_report fs repo_path tree with
  | Returned _ report =>
      NoDup (Dict.keys report) /\
      Forall (fun key =>
                exists e f,
                  In e (os_walk repo_path tree) /\
                  entry_root e = key /\
                  In f (entry_files e) /\
                  (f = "pom.xml" \/
                   Str.endswith f "build.gradle" = true \/
                   Str.endswith f "build.gradle.kts" = true))
             (Dict.keys report)
  | Raised _ _ => True
  end.
Proof.
  unfold generate_dependency_report.
  pose proof (scan_walk_keys fs (os_walk repo_path tree) (os_walk repo_path tree)
                Dict.empty (fun e H => H)
                (conj (NoDup_nil _) (Forall_nil _))) as K.
  destruct (scan_walk fs (os_walk repo_path tree) Dict.empty) as [out report|out x];
    [|exact I].
  destruct K as [N F]. split; [exact N|].
  apply (Forall_impl _ (P := project_of (os_walk repo_path tree))); [|exact F].
  intros key [e [He [R X]]].
  apply existsb_exists in X. destruct X as [f [Hf D]].
  exists e, f. repeat split; auto.
  unfold is_descriptor, is_pom, is_gradle in D.
  apply orb_true_iff in D. destruct D as [D|D].
  - left. now apply String.eqb_eq.
  - right. now apply orb_true_iff.
Qed.

(** *** The entries of the report *)

Lemma lookup_In {V} (k : string) (v : V) (d : Dict.t V) :
  Dict.lookup k d = Some v -> In (k, v) d.
Proof.
  induction d as [|[k' v'] d IH]; simpl; [discriminate|].
  destruct (String.eqb k k') eqn:E.
  - apply String.eqb_eq in E. intros H. inversion H; subst. now left.
  - intros H. right. now apply IH.
Qed.

(** What a directory does to the mapping, in terms of what the parser
    returns on its first descriptor. *)
Lemma scan_files_value fs root files pd :
  value_of (scan_files fs root files pd)
  = match first_descriptor files with
    | None => inr pd
    | Some d =>
        match parse_descriptor fs root d with
        | Returned _ [] => inr pd
        | Returned _ (r :: deps) => inr (Dict.set root (r :: deps) pd)
        | Raised _ x => inl x
        end
    end.
Proof.
  destruct (first_descriptor files) as [d|] eqn:F.
  - rewrite (scan_files_first fs root files d pd F).
    destruct (parse_descriptor fs root d) as [out [|r deps]|out x]; reflexivity.
  - now rewrite (scan_files_no_descriptor fs root files pd F).
Qed.

Lemma scan_walk_parsed fs all walk : forall pd,
  (forall e, In e walk -> In e all) ->
  Forall (parsed_entry fs all) pd ->
  match scan_walk fs walk pd with
  | Returned _ report => Forall (parsed_entry fs all) report
  | Raised _ _ => True
  end.
Proof.
  induction walk as [|e walk IH]; intros pd Sub Inv; simpl; [exact Inv|].
  assert (Step : match scan_files fs (entry_root e) (entry_files e) pd with
                 | Returned _ pd' => Forall (parsed_entry fs all) pd'
                 | Raised _ _ => True
                 end).
  { destruct (first_descriptor (entry_files e)) as [d|] eqn:F.
    - rewrite (scan_files_first fs _ _ d pd F).
      destruct (parse_descriptor fs (entry_root e) d) as [out deps|out x] eqn:P;
        [|exact I].
      destruct deps as [|r deps]; [exact Inv|]. simpl.
      apply set_Forall; [|exact Inv].
      split; [discriminate|].
      exists e, d, out. simpl. repeat split; auto. apply Sub. now left.
    - now rewrite (scan_files_no_descriptor fs _ _ pd F). }
  destruct (scan_files fs (entry_root e) (entry_files e) pd) as [out pd'|out x];
    simpl; [|exact I].
  assert (Sub' : forall e', In e' walk -> In e' all)
    by (intros e' H; apply Sub; now right).
  specialize (IH pd' Sub' Step).
  destruct (scan_walk fs walk pd'); [exact IH|exact I].
Qed.

(** C9: whenever [generate_dependency_report] returns a mapping, every
    entry of the mapping holds a non-empty sequence of records, and this
    sequence is what the parser returned on the first descriptor of a
    walked directory of that path.  A directory whose first descriptor
    parses to the empty sequence contributes no entry: it leaves the
    mapping as it is (last part, which gives what any directory does to
    the mapping from what the parser returns), and when no other walked
    directory has its path, the returned mapping has no entry under that
    path.  So the lines of the report are a project line and the
    dependency lines for every entry, and the line
    [No dependencies found.] is not among them. *)
Theorem report_entries_are_populated
    (fs : filesystem) (repo_path clone_dir : string) (tree : dir_tree) :
  match generate_dependency_report fs repo_path tree with
  | Returned _ report =>
      Forall (fun entry =>
                snd entry <> [] /\
                exists e d out,
                  In e (os_walk repo_path tree) /\
                  entry_root e = fst entry /\
                  first_descriptor (entry_files e) = Some d /\
                  parse_descriptor fs (entry_root e) d
                  = Returned out (snd entry))
             report /\
      (forall e d out,
         In e (os_walk repo_path tree) ->
         (forall e', In e' (os_walk repo_path tree) ->
                     entry_root e' = entry_root e -> e' = e) ->
         first_descriptor (entry_files e) = Some d ->
         parse_descriptor fs (entry_root e) d = Returned out [] ->
         Dict.lookup (entry_root e) report = None) /\
      report_lines clone_dir report
      = flat_map (fun entry => project_line clone_dir (fst entry)
                               :: map dependency_line (snd entry)) report /\
      ~ In no_dependencies_line (report_lines clone_dir report)
  | Raised _ _ => True
  end /\
  (forall root files pd,
     value_of (scan_files fs root files pd)
     = match first_descriptor files with
       | None => inr pd
       | Some d =>
           match parse_descriptor fs root d with
           | Returned _ [] => inr pd
           | Returned _ (r :: deps) => inr (Dict.set root (r :: deps) pd)
           | Raised _ x => inl x
           end
       end).
Proof.
  split; [|apply scan_files_value].
  unfold generate_dependency_report.
  pose proof (scan_walk_parsed fs (os_walk repo_path tree)
                (os_walk repo_path tree) Dict.empty (fun e H => H)
                (Forall_nil _)) as W.
  destruct (scan_walk fs (os_walk repo_path tree) Dict.empty)
    as [printed report|printed x]; [|exact I].
  assert (P : Forall populated_entry report).
  { apply Forall_forall. intros entry H.
    rewrite Forall_forall in W. exact (proj1 (W entry H)). }
  split; [exact W|]. split; [|split].
  - intros e d out He U F E.
    destruct (Dict.lookup (entry_root e) report) as [deps|] eqn:L;
      [|reflexivity].
    apply lookup_In in L. rewrite Forall_forall in W.
    destruct (W _ L) as [N [e' [d' [out' [He' [R [F' E']]]]]]].
    simpl in N, R, E'. rewrite (U e' He' R) in F', E'.
    rewrite F in F'. inversion F'; subst d'.
    rewrite E in E'. inversion E'; subst. now elim N.
  - now apply report_lines_populated.
  - now apply marker_not_in_report.
Qed.

(** *** Which files are opened *)

Lemma parse_descriptor_frame fs1 fs2 root d :
  fs1 (os_path_join root d) = fs2 (os_path_join root d) ->
  parse_descriptor fs1 root d = parse_descriptor fs2 root d.
Proof.
  intros E. unfold parse_descriptor, parse_maven_pom, parse_gradle_build_file,
    ET_parse, read_text. now rewrite E.
Qed.

Lemma scan_files_frame fs1 fs2 root files pd :
  (forall d, first_descriptor files = Some d ->
             fs1 (os_path_join root d) = fs2 (os_path_join root d)) ->
  scan_files fs1 root files pd = scan_files fs2 root files pd.
Proof.
  intros H. destruct (first_descriptor files) as [d|] eqn:F.
  - rewrite !(scan_files_first _ root files d pd F).
    now rewrite (parse_descriptor_frame fs1 fs2 root d (H d eq_refl)).
  - now rewrite !(scan_files_no_descriptor _ root files pd F).
Qed.

Lemma scan_walk_frame fs1 fs2 walk : forall pd,
  (forall e d, In e walk -> first_descriptor (entry_files e) = Some d ->
               fs1 (os_path_join (entry_root e) d)
               = fs2 (os_path_join (entry_root e) d)) ->
  scan_walk fs1 walk pd = scan_walk fs2 walk pd.
Proof.
  induction walk as [|e walk IH]; intros pd H; simpl; [reflexivity|].
  rewrite (scan_files_frame fs1 fs2 (entry_root e) (entry_files e) pd)
    by (intros d F; apply H; [now left|exact F]).
  destruct (scan_files fs2 (entry_root e) (entry_files e) pd) as [out pd'|out x];
    simpl; [|reflexivity].
  rewrite (IH pd'); [reflexivity|].
  intros e' d I' F. apply H; [now right|exact F].
Qed.

(** X9: the scan opens at most one file per directory, the first
    descriptor of its listing: two file systems that agree on these
    files give the same report, the same printed lines and the same
    exception, whatever the other files are. *)
Theorem scan_opens_first_descriptors_only
    (fs1 fs2 : filesystem) (repo_path : string) (tree : dir_tree) :
  (forall e d, In e (os_walk repo_path tree) ->
               first_descriptor (entry_files e) = Some d ->
               fs1 (os_path_join (entry_root e) d)
               = fs2 (os_path_join (entry_root e) d)) ->
  generate_dependency_report fs1 repo_path tree
  = generate_dependency_report fs2 repo_path tree.
Proof. intros H. now apply scan_walk_frame. Qed.

Lemma scan_opens_first_descriptors_only_witness :
  generate_dependency_report (Sample.both_descriptors "cloned_repo002")
    "cloned_repo002" Sample.pom_first
  = generate_dependency_report
      (Sample.disk [("cloned_repo002/pom.xml", Sample.pom_plain);
                    ("cloned_repo002/build.gradle", Denied)])
      "cloned_repo002" Sample.pom_first.
Proof.
  apply (scan_opens_first_descriptors_only
           (Sample.both_descriptors "cloned_repo002")
           (Sample.disk [("cloned_repo002/pom.xml", Sample.pom_plain);
                         ("cloned_repo002/build.gradle", Denied)])
           "cloned_repo002" Sample.pom_first).
  intros e d [<-|[]] F. vm_compute in F. inversion F; subst d. reflexivity.
Defined.

(** *** Directories that add nothing *)

Lemma value_of_bind {A B} (m : outcome A) (f : A -> outcome B) :
  value_of (bind m f)
  = match value_of m with
    | inr a => value_of (f a)
    | inl e => inl e
    end.
Proof.
  destruct m as [p a|p e]; simpl; [|reflexivity].
  destruct (f a); reflexivity.
Qed.





(** *** When the scan returns *)








(** A build file that is no UTF-8 text, a manifest with an encoding
    declaration that names no codec, and a descriptor path that leads
    through a regular file each end the scan with their exception. *)
Lemma further_exceptions_leave_the_scan :
  generate_dependency_report
    (Sample.disk [("repo/build.gradle", Case.build_file_latin1)])
    "repo" (Dir [] ["build.gradle"])
  = Raised ["Found Gradle project: repo/build.gradle"] UnicodeDecodeError /\
  generate_dependency_report
    (Sample.disk [("repo/pom.xml", Case.pom_unknown_encoding)])
    "repo" (Dir [] ["pom.xml"])
  = Raised ["Found Maven project: repo/pom.xml"] LookupError /\
  generate_dependency_report
    (Sample.disk [("repo/pom.xml", Case.below_regular_file)])
    "repo" (Dir [] ["pom.xml"])
  = Raised ["Found Maven project: repo/pom.xml"] NotADirectoryError /\
  generate_dependency_report
    (Sample.disk [("repo/pom.xml", Case.build_file_latin1)])
    "repo" (Dir [] ["pom.xml"])
  = Returned ["Found Maven project: repo/pom.xml";
              "Error parsing XML for repo/pom.xml: syntax error: line 1, column 0"]
      [].
Proof. repeat split; vm_compute; reflexivity. Qed.

(* ================================================================= *)
(** ** The report of the single-repository script *)

Lemma prefix_empty (s : string) : String.prefix EmptyString s = true.
Proof. now destruct s. Qed.

Lemma prefix_cons (a b : ascii) (p s : string) :
  String.prefix (String a p) (String b s) = Ascii.eqb a b && String.prefix p s.
Proof.
  simpl. destruct (ascii_dec a b) as [->|N].
  - now rewrite Ascii.eqb_refl.
  - apply Ascii.eqb_neq in N. now rewrite N.
Qed.

Lemma prefix_length (p : string) : forall s,
  String.prefix p s = true -> String.length p <= String.length s.
Proof.
  induction p as [|a p IH]; intros [|b s]; simpl; try lia; try discriminate.
  destruct (ascii_dec a b); [|discriminate].
  intros H. apply IH in H. lia.
Qed.

Lemma prefix_cat (a b : string) : String.prefix a (Str.cat a b) = true.
Proof.
  induction a as [|c a IH]; [apply prefix_empty|].
  rewrite cat_cons, prefix_cons, Ascii.eqb_refl. exact IH.
Qed.

Lemma contains_short (p : string) : forall s,
  String.length s < String.length p -> Str.contains s p = false.
Proof.
  intros s. induction s as [|c s IH]; intros L.
  - destruct p; [simpl in L; lia|reflexivity].
  - change (Str.contains (String c s) p)
      with (String.prefix p (String c s) || Str.contains s p).
    rewrite IH by (simpl in L; lia). rewrite orb_false_r.
    destruct (String.prefix p (String c s)) eqn:E; [|reflexivity].
    apply prefix_length in E. lia.
Qed.

Lemma replace_nonempty (s old new : string) :
  old <> EmptyString -> Str.replace s old new = Str.replace_from old new 0 s.
Proof. destruct old; [intros N; now elim N|reflexivity]. Qed.

Lemma replace_from_zero (old new : string) (c : ascii) (s : string) :
  Str.replace_from old new 0 (String c s)
  = if String.prefix old (String c s)
    then Str.cat new (Str.replace_from old new (String.length old - 1) s)
    else String c (Str.replace_from old new 0 s).
Proof. reflexivity. Qed.

(** A text in which [old] does not occur is left as it is. *)
Lemma replace_from_absent (old new : string) : forall s,
  Str.contains s old = false -> Str.replace_from old new 0 s = s.
Proof.
  induction s as [|c s IH]; [reflexivity|].
  intros H.
  change (Str.contains (String c s) old)
    with (String.prefix old (String c s) || Str.contains s old) in H.
  apply orb_false_elim in H. destruct H as [P C].
  rewrite replace_from_zero, P. now rewrite IH.
Qed.

Lemma replace_from_skip (old new : string) : forall a rest,
  Str.replace_from old new (String.length a) (Str.cat a rest)
  = Str.replace_from old new 0 rest.
Proof. induction a as [|c a IH]; intros rest; [reflexivity|apply IH]. Qed.

(** An occurrence at the start is replaced, and the replacement goes on
    after it. *)
Lemma replace_from_prefix (old new rest : string) :
  old <> EmptyString ->
  Str.replace_from old new 0 (Str.cat old rest)
  = Str.cat new (Str.replace_from old new 0 rest).
Proof.
  intros N. destruct old as [|c old]; [now elim N|].
  rewrite cat_cons, replace_from_zero.
  rewrite <- cat_cons, prefix_cat.
  replace (String.length (String c old) - 1) with (String.length old)
    by (simpl; lia).
  now rewrite replace_from_skip.
Qed.

(** X12: the project line shows the path of a project relative to the
    clone directory, provided the clone directory followed by a slash
    does not occur again inside that relative path (every occurrence is
    taken out, not only the leading one); the project at the clone
    directory itself is shown under the name of the clone directory. *)
Theorem project_line_is_relative (clone_dir rel : string) :
  Str.contains rel (Str.cat clone_dir "/") = false ->
  project_line clone_dir (Str.cat clone_dir (Str.cat "/" rel))
  = Str.cat (String LF "Project: ") rel /\
  project_line clone_dir clone_dir = Str.cat (String LF "Project: ") clone_dir.
Proof.
  intros H. unfold project_line. split; f_equal.
  - rewrite replace_nonempty by apply cat_not_empty.
    rewrite <- cat_assoc, replace_from_prefix by apply cat_not_empty.
    now rewrite replace_from_absent.
  - rewrite replace_nonempty by apply cat_not_empty.
    apply replace_from_absent, contains_short.
    rewrite length_cat. simpl. lia.
Qed.

Lemma project_line_is_relative_witness :
  project_line "cloned_repo002" (Str.cat "cloned_repo002" (Str.cat "/" "core/api"))
  = Str.cat (String LF "Project: ") "core/api" /\
  project_line "cloned_repo002" "cloned_repo002"
  = Str.cat (String LF "Project: ") "cloned_repo002".
Proof.
  apply (project_line_is_relative "cloned_repo002" "core/api").
  reflexivity.
Defined.

(** *** The report file *)

Lemma concat_all_app (l1 l2 : list string) :
  concat_all (l1 ++ l2) = Str.cat (concat_all l1) (concat_all l2).
Proof.
  induction l1 as [|s l1 IH]; simpl; [reflexivity|].
  now rewrite IH, cat_assoc.
Qed.

Lemma project_text_lines clone_dir entry :
  project_text clone_dir entry
  = concat_all (map ended (project_lines clone_dir entry)).
Proof.
  destruct entry as [path [|d deps]]; unfold project_text, project_lines.
  - cbn [map concat_all]. unfold ended. now rewrite cat_empty_r.
  - cbn [map concat_all]. unfold ended at 1. f_equal.
    now rewrite map_map.
Qed.

Lemma report_text_lines clone_dir report :
  report_text clone_dir report
  = Str.cat (ended "--- Dependency Report ---")
            (concat_all (map ended (report_lines clone_dir report))).
Proof.
  unfold report_text, report_lines, ended. f_equal.
  induction report as [|entry report IH]; [reflexivity|].
  cbn [map flat_map concat_all].
  rewrite map_app, concat_all_app, IH. f_equal.
  apply project_text_lines.
Qed.

(** X13: whenever [main] writes the report file, the text of the file is
    the header line followed by exactly the report lines that [main]
    printed between its header and its closing line, each ended by a
    newline; the report is then not empty. *)
Theorem main_saves_what_it_prints
    (dir_exists : bool) (git : git_result) (fs : filesystem) (tree : dir_tree)
    (repo_url : string) (out : list string) (text : string) :
  main dir_exists git fs tree repo_url = Returned out (Some text) ->
  exists before report,
    report <> [] /\
    out = before
          ++ [String LF "--- Dependency Report ---"]
          ++ report_lines clone_dir_002 report
          ++ [String LF "Report saved to dependency_report.txt"] /\
    text = Str.cat (ended "--- Dependency Report ---")
             (concat_all (map ended (report_lines clone_dir_002 report))).
Proof.
  unfold main. intros H.
  apply bind_returned in H. destruct H as [o1 [cloned [o2 [_ [H ->]]]]].
  destruct cloned; simpl negb in H; cbv iota in H; [|discriminate H].
  apply bind_returned in H. destruct H as [o3 [[] [o4 [_ [H ->]]]]].
  apply bind_returned in H. destruct H as [o5 [report [o6 [_ [H ->]]]]].
  destruct report as [|entry report]; [discriminate H|].
  simpl in H. inversion H; subst; clear H.
  exists (o1 ++ o3 ++ o5), (entry :: report).
  split; [discriminate|]. split.
  - change (report_lines clone_dir_002 (entry :: report))
      with (project_lines clone_dir_002 entry
            ++ report_lines clone_dir_002 report).
    rewrite <- !app_assoc. reflexivity.
  - apply report_text_lines.
Qed.

Lemma main_saves_what_it_prints_witness :
  exists before report,
    report <> [] /\
    [ "Directory 'cloned_repo002' already exists. Skipping clone.";
      String LF "Scanning for dependencies...";
      "Found Maven project: cloned_repo002/pom.xml";
      String LF "--- Dependency Report ---";
      String LF "Project: cloned_repo002";
      "  - Group: com.example, Artifact: lib, Version: 1.0.0";
      String LF "Report saved to dependency_report.txt" ]
    = before
      ++ [String LF "--- Dependency Report ---"]
      ++ report_lines clone_dir_002 report
      ++ [String LF "Report saved to dependency_report.txt"] /\
    report_text clone_dir_002 [("cloned_repo002", [Sample.lib "1.0.0"])]
    = Str.cat (ended "--- Dependency Report ---")
        (concat_all (map ended (report_lines clone_dir_002 report))).
Proof.
  apply (main_saves_what_it_prints true GitDone
           (Sample.both_descriptors "cloned_repo002") Sample.pom_first
           "https://example.org/org/repo.git").
  vm_compute. reflexivity.
Defined.

(* ================================================================= *)
(** ** The multi-repository script *)

Lemma all_chars_cat p (a b : string) :
  all_chars p (Str.cat a b) = all_chars p a && all_chars p b.
Proof.
  induction a as [|c a IH]; [reflexivity|].
  rewrite cat_cons. simpl. now rewrite IH, andb_assoc.
Qed.

Lemma last_segment_from_no_slash s : forall cur,
  all_chars not_slash cur = true ->
  all_chars not_slash (last_segment_from cur s) = true.
Proof.
  induction s as [|c s IH]; intros cur H; simpl; [exact H|].
  destruct (Ascii.eqb c "/") eqn:E; apply IH; [reflexivity|].
  rewrite all_chars_cat, H. simpl. unfold not_slash. now rewrite E.
Qed.

(** Taking occurrences out of a text adds no character to it. *)
Lemma all_chars_replace_from p old s : forall n,
  all_chars p s = true ->
  all_chars p (Str.replace_from old EmptyString n s) = true.
Proof.
  induction s as [|c s IH]; intros n H; [reflexivity|].
  simpl in H. apply andb_prop in H. destruct H as [Hc Hs].
  destruct n as [|n]; [|now apply IH].
  rewrite replace_from_zero.
  destruct (String.prefix old (String c s)); [now apply IH|].
  simpl. rewrite Hc. now apply IH.
Qed.

Lemma startswith_slash name :
  all_chars not_slash name = true -> Str.startswith name "/" = false.
Proof.
  unfold Str.startswith. destruct name as [|c name]; [reflexivity|].
  simpl all_chars. intros H. apply andb_prop in H. destruct H as [H _].
  rewrite prefix_cons. unfold not_slash in H. apply negb_true_iff in H.
  rewrite Ascii.eqb_sym, H. reflexivity.
Qed.

(** *** The name of a repository *)

Lemma last_segment_after_slash base rest : forall cur,
  last_segment_from cur (Str.cat base (String "/" rest)) = last_segment rest.
Proof.
  induction base as [|c base IH]; intros cur; [reflexivity|].
  rewrite cat_cons. simpl. destruct (Ascii.eqb c "/"); apply IH.
Qed.

Lemma last_segment_from_whole s : forall cur,
  all_chars not_slash s = true -> last_segment_from cur s = Str.cat cur s.
Proof.
  induction s as [|c s IH]; intros cur H; simpl.
  - now rewrite cat_empty_r.
  - simpl in H. apply andb_prop in H. destruct H as [Hc Hs].
    unfold not_slash in Hc. apply negb_true_iff in Hc. rewrite Hc.
    rewrite (IH _ Hs). now rewrite cat_assoc.
Qed.

(** X14: whatever the URL, the name of a repository holds no slash and
    its clone directory is [/tmp/] followed by that name.  The name need
    not be that of an entry of [/tmp]: for a URL that ends in a slash it
    is empty and the clone directory is [/tmp/] itself; for a URL that
    ends in a slash and two dots it is these two dots and the clone
    directory is [/tmp/..]; for a URL that ends in a slash, two dots and
    git, the clone directory is [/tmp/.]. *)
Theorem clone_dir_is_tmp_then_name (repo_url base : string) :
  all_chars not_slash (repo_name_of repo_url) = true /\
  clone_dir_of repo_url = Str.cat "/tmp/" (repo_name_of repo_url) /\
  clone_dir_of (Str.cat base "/") = "/tmp/" /\
  clone_dir_of (Str.cat base "/..") = "/tmp/.." /\
  clone_dir_of (Str.cat base "/..git") = "/tmp/.".
Proof.
  assert (N : all_chars not_slash (repo_name_of repo_url) = true).
  { unfold repo_name_of. rewrite replace_nonempty by discriminate.
    apply all_chars_replace_from.
    now apply last_segment_from_no_slash. }
  split; [exact N|]. split.
  { unfold clone_dir_of, os_path_join. now rewrite (startswith_slash _ N). }
  unfold clone_dir_of, repo_name_of, last_segment.
  change (Str.cat base "/") with (Str.cat base (String "/" EmptyString)).
  change (Str.cat base "/..") with (Str.cat base (String "/" "..")).
  change (Str.cat base "/..git") with (Str.cat base (String "/" "..git")).
  rewrite !last_segment_after_slash. repeat split; reflexivity.
Qed.

(** No occurrence of [.git] lies across the end of a name that holds
    none. *)
Lemma no_git_across name c :
  String.prefix ".git" (String c name) = false ->
  String.prefix ".git" (String c (Str.cat name ".git")) = false.
Proof.
  rewrite !prefix_cons. destruct (Ascii.eqb "." c); [|reflexivity].
  destruct name as [|c1 name]; [reflexivity|].
  rewrite cat_cons, !prefix_cons. destruct (Ascii.eqb "g" c1); [|reflexivity].
  destruct name as [|c2 name]; [reflexivity|].
  rewrite cat_cons, !prefix_cons. destruct (Ascii.eqb "i" c2); [|reflexivity].
  destruct name as [|c3 name]; [reflexivity|].
  rewrite cat_cons, !prefix_cons, !prefix_empty. trivial.
Qed.

Lemma replace_git_suffix name :
  Str.contains name ".git" = false ->
  Str.replace_from ".git" EmptyString 0 (Str.cat name ".git") = name.
Proof.
  induction name as [|c name IH]; [reflexivity|].
  intros H.
  change (Str.contains (String c name) ".git")
    with (String.prefix ".git" (String c name) || Str.contains name ".git") in H.
  apply orb_false_elim in H. destruct H as [P C].
  rewrite cat_cons, replace_from_zero, (no_git_across name c P).
  now rewrite (IH C).
Qed.

(** X15: for a URL that ends in a slash, a name and [.git], where the
    name holds neither a slash nor [.git], the name of the repository is
    that name. *)
Theorem repo_name_of_git_url (base name : string) :
  all_chars not_slash name = true ->
  Str.contains name ".git" = false ->
  repo_name_of (Str.cat base (Str.cat "/" (Str.cat name ".git"))) = name.
Proof.
  intros S G. unfold repo_name_of, last_segment.
  change (Str.cat "/" (Str.cat name ".git"))
    with (String "/" (Str.cat name ".git")).
  rewrite last_segment_after_slash. unfold last_segment.
  rewrite last_segment_from_whole
    by (rewrite all_chars_cat, S; reflexivity).
  change (Str.cat EmptyString (Str.cat name ".git")) with (Str.cat name ".git").
  rewrite replace_nonempty by discriminate.
  now apply replace_git_suffix.
Qed.

Lemma repo_name_of_git_url_witness :
  repo_name_of (Str.cat "https://github.com/your-org"
                  (Str.cat "/" (Str.cat "repo1" ".git"))) = "repo1".
Proof.
  apply (repo_name_of_git_url "https://github.com/your-org" "repo1");
    reflexivity.
Defined.

(** *** The rows *)

Section Rows.

Variable relpath : string -> string -> string.

Lemma collect_files_rows fs repo_name clone_dir root files : forall acc out rows,
  collect_files relpath fs repo_name clone_dir root files acc = Returned out rows ->
  exists new, rows = acc ++ new /\
              Forall (fun r => Repository r = repo_name) new.
Proof.
  assert (M : forall path deps,
             Forall (fun r => Repository r = repo_name)
                    (map (dep_row relpath repo_name clone_dir path) deps)).
  { intros path deps. apply Forall_forall. intros r Hr.
    apply in_map_iff in Hr. destruct Hr as [d [<- _]]. reflexivity. }
  induction files as [|f files IH]; intros acc out rows H; simpl in H.
  - inversion H; subst. exists []. now rewrite app_nil_r.
  - destruct (String.eqb f "pom.xml");
      [|destruct (String.eqb f "build.gradle")].
    + apply bind_returned in H. destruct H as [o1 [deps [o2 [_ [H _]]]]].
      apply IH in H. destruct H as [new [-> F]].
      eexists. rewrite <- app_assoc. split; [reflexivity|].
      apply Forall_app. split; [apply M|exact F].
    + apply bind_returned in H. destruct H as [o1 [deps [o2 [_ [H _]]]]].
      apply IH in H. destruct H as [new [-> F]].
      eexists. rewrite <- app_assoc. split; [reflexivity|].
      apply Forall_app. split; [apply M|exact F].
    + now apply IH in H.
Qed.

Lemma collect_walk_rows fs repo_name clone_dir walk : forall acc out rows,
  collect_walk relpath fs repo_name clone_dir walk acc = Returned out rows ->
  exists new, rows = acc ++ new /\
              Forall (fun r => Repository r = repo_name) new.
Proof.
  induction walk as [|e walk IH]; intros acc out rows H; simpl in H.
  - inversion H; subst. exists []. now rewrite app_nil_r.
  - apply bind_returned in H. destruct H as [o1 [rows1 [o2 [H1 [H2 _]]]]].
    apply collect_files_rows in H1. destruct H1 as [new1 [-> F1]].
    apply IH in H2. destruct H2 as [new2 [-> F2]].
    exists (new1 ++ new2). rewrite app_assoc. split; [reflexivity|].
    apply Forall_app. now split.
Qed.

Lemma row_of_cloned_later repo repos r :
  row_of_cloned repos r -> row_of_cloned (repo :: repos) r.
Proof. intros [x [I H]]. exists x. split; [now right|exact H]. Qed.

Lemma collect_repositories_rows repos : forall acc out rows,
  collect_repositories relpath repos acc = Returned out rows ->
  exists new, rows = acc ++ new /\ Forall (row_of_cloned repos) new.
Proof.
  induction repos as [|repo repos IH]; intros acc out rows H; simpl in H.
  - inversion H; subst. exists []. now rewrite app_nil_r.
  - apply bind_returned in H. destruct H as [o1 [cloned [o2 [C [H _]]]]].
    destruct cloned.
    + apply bind_returned in H. destruct H as [o3 [rows1 [o4 [H1 [H2 _]]]]].
      apply collect_walk_rows in H1. destruct H1 as [new1 [-> F1]].
      apply IH in H2. destruct H2 as [new2 [-> F2]].
      exists (new1 ++ new2). rewrite app_assoc. split; [reflexivity|].
      apply Forall_app. split.
      * apply Forall_forall. intros r Hr. rewrite Forall_forall in F1.
        exists repo. split; [now left|]. split; [|now apply F1].
        unfold clone_repo in C. destruct (git_does repo);
          [reflexivity|discriminate C|discriminate C].
      * apply Forall_forall. intros r Hr. rewrite Forall_forall in F2.
        now apply row_of_cloned_later, F2.
    + apply IH in H. destruct H as [new [-> F]]. exists new.
      split; [reflexivity|].
      apply Forall_forall. intros r Hr. rewrite Forall_forall in F.
      now apply row_of_cloned_later, F.
Qed.

(** X16: the rows that [main] collects keep the rows collected before
    them, in order, and every row added carries in its Repository column
    the name of one of the repositories whose clone succeeded. *)
Theorem rows_carry_their_repository
    (repos : list repository) (acc : list row) :
  match collect_repositories relpath repos acc with
  | Returned _ rows =>
      exists new,
        rows = acc ++ new /\
        Forall (fun r => exists repo,
                           In repo repos /\ git_does repo = GitDone /\
                           Repository r = repo_name_of (url repo)) new
  | Raised _ _ => True
  end.
Proof.
  destruct (collect_repositories relpath repos acc) as [out rows|out e] eqn:H;
    [|exact I].
  now apply collect_repositories_rows in H.
Qed.

(** *** A clone that fails *)

Lemma collect_repositories_app_value repos1 repos2 : forall acc,
  value_of (collect_repositories relpath (repos1 ++ repos2) acc)
  = match value_of (collect_repositories relpath repos1 acc) with
    | inr rows => value_of (collect_repositories relpath repos2 rows)
    | inl e => inl e
    end.
Proof.
  induction repos1 as [|repo repos1 IH]; intros acc; [reflexivity|].
  cbn [app collect_repositories]. rewrite !value_of_bind.
  destruct (value_of (clone_repo (git_does repo) (url repo)
                        (clone_dir_of (url repo)))) as [x|[|]];
    [reflexivity| |apply IH].
  rewrite !value_of_bind.
  destruct (value_of (collect_walk relpath (cloned_files repo)
                        (repo_name_of (url repo)) (clone_dir_of (url repo))
                        (os_walk (clone_dir_of (url repo)) (cloned_tree repo))
                        acc)); [reflexivity|apply IH].
Qed.

(** X17: a repository whose clone fails with CalledProcessError adds no
    row and does not stop the run: [main] collects what it would
    collect without that repository. *)
Theorem failed_clone_is_passed_over
    (repos1 repos2 : list repository) (failed : repository) (msg : string)
    (acc : list row) :
  git_does failed = CalledProcessError msg ->
  value_of (collect_repositories relpath (repos1 ++ failed :: repos2) acc)
  = value_of (collect_repositories relpath (repos1 ++ repos2) acc).
Proof.
  intros G. rewrite !collect_repositories_app_value.
  destruct (value_of (collect_repositories relpath repos1 acc)) as [x|rows];
    [reflexivity|].
  cbn [collect_repositories]. rewrite value_of_bind.
  unfold clone_repo. rewrite G. reflexivity.
Qed.

(** *** When the rows are collected *)





End Rows.

(** In the multi-repo script a manifest with an encoding declaration
    that names no codec and a build file that is no text in the encoding
    of the call raise out of their parsers. *)
Lemma further_exceptions_leave_the_parsers :
  parse_pom (Sample.disk [("pom.xml", Case.pom_unknown_encoding)]) "pom.xml"
  = Raised [] LookupError /\
  parse_gradle_file (Sample.disk [("build.gradle", Case.build_file_latin1)])
    "build.gradle"
  = Raised [] UnicodeDecodeError.
Proof. split; vm_compute; reflexivity. Qed.

Lemma failed_clone_is_passed_over_witness :
  value_of (collect_repositories Sample.relpath_below
              ([] ++ Case.broken :: [Case.cloned]) [])
  = value_of (collect_repositories Sample.relpath_below
                ([] ++ [Case.cloned]) []).
Proof.
  exact (failed_clone_is_passed_over Sample.relpath_below [] [Case.cloned]
           Case.broken "exit status 128" [] eq_refl).
Defined.

(** *** The CSV file *)

(** X19: whatever the rows hold (commas, quotes, line breaks, [None]),
    the CSV text that [main] writes is read by the [csv] reader as the
    header record followed by exactly one record of five fields per row,
    in order, with [None] read as the empty text. *)
Theorem report_csv_one_record_per_row (rows : list row) :
  Csv.read (report_csv rows)
  = Some (csv_columns :: map (fun r => map Csv.cell (row_values r)) rows).
Proof.
  unfold report_csv.
  change (Str.cat (Csv.writerow csv_columns)
            (Csv.writerows (map (fun r => map Csv.cell (row_values r)) rows)))
    with (Csv.writerows
            (csv_columns :: map (fun r => map Csv.cell (row_values r)) rows)).
  apply csv_read_write.
Qed.

(* ================================================================= *)
(** ** What the patterns take *)

(** *** The matcher and the texts of a pattern *)

Section Soundness.

Context {R : Type}.

(** A success of the matcher goes through a text of the pattern. *)
Let sound (r : regex) (body : string -> captures -> @cont R -> option R)
  : Prop :=
  forall s c k res,
    body s c k = Some res ->
    exists w s' c', s = Str.cat w s' /\ denotes r w c c' /\ k s' c' = Some res.

Lemma iterate_sound r1 body :
  sound r1 body -> forall fuel, sound (Star r1) (iterate fuel body).
Proof.
  intros B fuel. induction fuel as [|fuel IH]; intros s c k res; simpl.
  - intros H. exists EmptyString, s, c. repeat split; [constructor|exact H].
  - destruct (body s c _) as [x|] eqn:E.
    + intros H. inversion H; subst x. clear H.
      apply B in E. destruct E as [w1 [s1 [c1 [-> [D1 E]]]]].
      destruct (Nat.ltb _ _); [|discriminate].
      apply IH in E. destruct E as [w2 [s2 [c2 [-> [D2 E]]]]].
      exists (Str.cat w1 w2), s2, c2. split; [now rewrite cat_assoc|].
      split; [econstructor; eassumption|exact E].
    + intros H. exists EmptyString, s, c. repeat split; [constructor|exact H].
Qed.

Lemma run_sound (r : regex) : sound r (run r).
Proof.
  induction r as [|p|r1 IH1 r2 IH2|r1 IH1 r2 IH2|r1 IH1|n r1 IH1];
    intros s c k res; simpl.
  - intros H. exists EmptyString, s, c. repeat split; [constructor|exact H].
  - destruct s as [|a s]; [discriminate|].
    destruct (p a) eqn:P; [|discriminate].
    intros H. exists (String a EmptyString), s, c.
    repeat split; [now constructor|exact H].
  - intros H. apply IH1 in H. destruct H as [w1 [s1 [c1 [-> [D1 H]]]]].
    apply IH2 in H. destruct H as [w2 [s2 [c2 [-> [D2 H]]]]].
    exists (Str.cat w1 w2), s2, c2. split; [now rewrite cat_assoc|].
    split; [econstructor; eassumption|exact H].
  - destruct (run r1 s c k) as [x|] eqn:E.
    + intros H. inversion H; subst x. apply IH1 in E.
      destruct E as [w [s' [c' [-> [D E]]]]].
      exists w, s', c'. repeat split; [now apply denotes_alt_l|exact E].
    + intros H. apply IH2 in H. destruct H as [w [s' [c' [-> [D H]]]]].
      exists w, s', c'. repeat split; [now apply denotes_alt_r|exact H].
  - now apply iterate_sound.
  - intros H. apply IH1 in H. destruct H as [w [s' [c' [-> [D H]]]]].
    rewrite length_cat, Nat.add_sub, take_cat in H.
    exists w, s', ((n, w) :: c'). repeat split; [now constructor|exact H].
Qed.

End Soundness.

Lemma match_here_denotes r t s' m :
  match_here r t = Some (s', m) ->
  exists w, t = Str.cat w s' /\ denotes r w [] m.
Proof.
  unfold match_here. intros H. apply run_sound in H.
  destruct H as [w [s1 [c1 [-> [D H]]]]]. inversion H; subst. now exists w.
Qed.

Lemma finditer_from_matches r m : forall fuel s,
  In m (finditer_from fuel r s) -> exists t s', match_here r t = Some (s', m).
Proof.
  induction fuel as [|fuel IH]; intros s; simpl; [tauto|].
  assert (T : In m match s with
                   | EmptyString => []
                   | String _ t => finditer_from fuel r t
                   end -> exists t s', match_here r t = Some (s', m)).
  { destruct s; [intros []|apply IH]. }
  destruct (match_here r s) as [[s' c]|] eqn:E; [|exact T].
  intros [<-|H]; [now exists s, s'|].
  destruct (Nat.ltb _ _); [now apply IH in H|now apply T].
Qed.

Lemma search_matches r m : forall s,
  search r s = Some m -> exists t s', match_here r t = Some (s', m).
Proof.
  induction s as [|a s IH]; simpl.
  - destruct (match_here r EmptyString) as [[s' c]|] eqn:E; [|discriminate].
    intros H. inversion H; subst. now exists EmptyString, s'.
  - destruct (match_here r (String a s)) as [[s' c]|] eqn:E; [|exact IH].
    intros H. inversion H; subst. now exists (String a s), s'.
Qed.

(** *** Reading a text of a pattern *)

Lemma denotes_no_groups r w c c' :
  denotes r w c c' -> no_groups r = true -> c' = c.
Proof.
  induction 1; simpl; intros N; try reflexivity; try discriminate;
    try (apply andb_prop in N; destruct N as [N1 N2]); auto.
  - rewrite IHdenotes2, IHdenotes1; auto.
  - rewrite IHdenotes2, IHdenotes1; auto.
Qed.

Lemma denotes_within q r w c c' :
  denotes r w c c' -> within q r -> all_chars q w = true.
Proof.
  induction 1; simpl; intros W; try reflexivity; auto.
  - now rewrite (W a H).
  - destruct W as [W1 W2]. rewrite all_chars_cat, IHdenotes1, IHdenotes2; auto.
  - now apply IHdenotes, W.
  - now apply IHdenotes, W.
  - rewrite all_chars_cat, IHdenotes1, IHdenotes2; auto.
Qed.

Lemma denotes_cat_inv r1 r2 w c c2 :
  denotes (Cat r1 r2) w c c2 ->
  exists w1 w2 c1,
    w = Str.cat w1 w2 /\ denotes r1 w1 c c1 /\ denotes r2 w2 c1 c2.
Proof. intros H. inversion H; subst. now exists w1, w2, c1. Qed.

Lemma denotes_alt_inv r1 r2 w c c' :
  denotes (Alt r1 r2) w c c' -> denotes r1 w c c' \/ denotes r2 w c c'.
Proof. intros H. inversion H; subst; auto. Qed.

Lemma denotes_group_inv n r w c c' :
  denotes (Group n r) w c c' -> exists c1, c' = (n, w) :: c1 /\ denotes r w c c1.
Proof. intros H. inversion H; subst. now exists c1. Qed.

Lemma denotes_plus_nonempty p r w c c' :
  denotes (Cat (Chr p) r) w c c' -> w <> EmptyString.
Proof.
  intros H. apply denotes_cat_inv in H.
  destruct H as [w1 [w2 [c1 [-> [D _]]]]].
  inversion D; subst. discriminate.
Qed.

(** A group over a run of characters of a class: what it records. *)
Lemma denotes_group_run n p w c c' :
  denotes (Group n (plus (Chr p))) w c c' ->
  c' = (n, w) :: c /\ w <> EmptyString /\ all_chars p w = true.
Proof.
  intros H. apply denotes_group_inv in H. destruct H as [c1 [-> H]].
  assert (c1 = c) by (apply (denotes_no_groups _ _ _ _ H); reflexivity).
  subst c1. split; [reflexivity|]. split.
  - apply (denotes_plus_nonempty _ _ _ _ _ H).
  - apply (denotes_within p _ _ _ _ H). simpl. auto.
Qed.

Ltac split_cat H w1 w2 D :=
  apply denotes_cat_inv in H; destruct H as [w1 [w2 [? [-> [D H]]]]].

Ltac same_groups D :=
  let E := fresh "E" in
  pose proof (denotes_no_groups _ _ _ _ D eq_refl) as E; subst.

Ltac group_run D N C :=
  apply denotes_group_run in D; destruct D as [-> [N C]].

Lemma coord_within_version a : coord_char a = true -> version_char a = true.
Proof. unfold version_char. now intros ->. Qed.

Lemma word_within_version a : word a = true -> version_char a = true.
Proof. unfold version_char. intros ->. apply orb_true_r. Qed.

(** The text of the third group of the first alternative. *)
Lemma denotes_version w c c' :
  denotes (Cat coord (Star (Cat (lit "-") (plus (Chr word))))) w c c' ->
  c' = c /\ w <> EmptyString /\ all_chars version_char w = true.
Proof.
  intros D. split; [|split].
  - apply (denotes_no_groups _ _ _ _ D). reflexivity.
  - apply denotes_cat_inv in D. destruct D as [v1 [v2 [c1 [-> [D _]]]]].
    apply denotes_plus_nonempty in D.
    intros E. destruct v1; [now elim D|discriminate E].
  - apply (denotes_within version_char _ _ _ _ D).
    cbv [within coord plus lit].
    repeat split; auto using coord_within_version, word_within_version.
    intros a E. apply Ascii.eqb_eq in E. subst a. reflexivity.
Qed.

(** The groups of a match of the first alternative. *)
Lemma colon_triple_groups w m :
  denotes colon_triple w [] m ->
  exists g a v, m = [(3, v); (2, a); (1, g)] /\
    coordinate g /\ coordinate a /\
    v <> EmptyString /\ all_chars version_char v = true.
Proof.
  intros H. cbv [colon_triple seq] in H.
  split_cat H k0 r0 D0. same_groups D0.
  split_cat H k1 r1 D1. same_groups D1.
  split_cat H g r2 D2. group_run D2 G1 G2.
  split_cat H k3 r3 D3. same_groups D3.
  split_cat H a r4 D4. group_run D4 A1 A2.
  split_cat H k5 r5 D5. same_groups D5.
  split_cat H v r6 D6.
  apply denotes_group_inv in D6. destruct D6 as [c6 [-> D6]].
  apply denotes_version in D6. destruct D6 as [-> [V1 V2]].
  same_groups H.
  exists g, a, v. unfold coordinate. auto 10.
Qed.

(** The groups of a match of the second alternative. *)
Lemma named_arguments_groups w m :
  denotes named_arguments w [] m ->
  exists g a v, m = [(6, v); (5, a); (4, g)] /\
    coordinate g /\ coordinate a /\ coordinate v.
Proof.
  intros H. cbv [named_arguments seq] in H.
  split_cat H k0 r0 D0. same_groups D0.
  split_cat H k1 r1 D1. same_groups D1.
  split_cat H k2 r2 D2. same_groups D2.
  split_cat H k3 r3 D3. same_groups D3.
  split_cat H k4 r4 D4. same_groups D4.
  split_cat H g r5 D5. group_run D5 G1 G2.
  split_cat H k6 r6 D6. same_groups D6.
  split_cat H k7 r7 D7. same_groups D7.
  split_cat H k8 r8 D8. same_groups D8.
  split_cat H k9 r9 D9. same_groups D9.
  split_cat H k10 r10 D10. same_groups D10.
  split_cat H k11 r11 D11. same_groups D11.
  split_cat H a r12 D12. group_run D12 A1 A2.
  split_cat H k13 r13 D13. same_groups D13.
  split_cat H k14 r14 D14. same_groups D14.
  split_cat H k15 r15 D15. same_groups D15.
  split_cat H k16 r16 D16. same_groups D16.
  split_cat H k17 r17 D17. same_groups D17.
  split_cat H k18 r18 D18. same_groups D18.
  split_cat H v r19 D19. group_run D19 V1 V2.
  same_groups H.
  exists g, a, v. unfold coordinate. auto 10.
Qed.

(** The groups of a match of the pattern of the second loop. *)
Lemma kotlin_groups w m :
  denotes kotlin_dependency_pattern w [] m ->
  exists g a v, m = [(3, v); (2, a); (1, g)] /\
    coordinate g /\ coordinate a /\ coordinate v.
Proof.
  intros H. cbv [kotlin_dependency_pattern seq] in H.
  split_cat H k0 r0 D0. same_groups D0.
  split_cat H k1 r1 D1. same_groups D1.
  split_cat H k2 r2 D2. same_groups D2.
  split_cat H g r3 D3. group_run D3 G1 G2.
  split_cat H k4 r4 D4. same_groups D4.
  split_cat H a r5 D5. group_run D5 A1 A2.
  split_cat H k6 r6 D6. same_groups D6.
  split_cat H k7 r7 D7. same_groups D7.
  split_cat H k8 r8 D8. same_groups D8.
  split_cat H k9 r9 D9. same_groups D9.
  split_cat H k10 r10 D10. same_groups D10.
  split_cat H k11 r11 D11. same_groups D11.
  split_cat H v r12 D12. group_run D12 V1 V2.
  same_groups H.
  exists g, a, v. unfold coordinate. auto 10.
Qed.

(** The groups of a match of the pattern of [parse_gradle_file]. *)
Lemma line_pattern_groups w m :
  denotes line_pattern w [] m ->
  exists g a v, m = [(3, v); (2, a); (1, g)] /\
    g <> EmptyString /\ all_chars not_colon g = true /\
    a <> EmptyString /\ all_chars not_colon a = true /\
    v <> EmptyString /\ all_chars not_quote v = true.
Proof.
  intros H. cbv [line_pattern seq] in H.
  split_cat H k0 r0 D0. same_groups D0.
  split_cat H g r1 D1. group_run D1 G1 G2.
  split_cat H k2 r2 D2. same_groups D2.
  split_cat H a r3 D3. group_run D3 A1 A2.
  split_cat H k4 r4 D4. same_groups D4.
  split_cat H v r5 D5. group_run D5 V1 V2.
  same_groups H.
  exists g, a, v. auto 10.
Qed.

Lemma coordinate_truthy s : s <> EmptyString -> Str.truthy (Some s) = true.
Proof. intros N. simpl. now apply negb_true_iff, String.eqb_neq. Qed.

Lemma coordinate_version v :
  coordinate v -> v <> EmptyString /\ all_chars version_char v = true.
Proof.
  intros [N C]. split; [exact N|]. clear N.
  induction v as [|c v IH]; [reflexivity|].
  simpl in *. apply andb_prop in C. destruct C as [C1 C2].
  now rewrite (coord_within_version c C1), IH.
Qed.

Lemma dependency_record_coordinates t s' m :
  match_here dependency_pattern t = Some (s', m) ->
  Forall coordinate_record (dependency_record m).
Proof.
  intros H. apply match_here_denotes in H. destruct H as [w [_ D]].
  unfold dependency_pattern in D. apply denotes_alt_inv in D.
  destruct D as [H3|H3].
  - apply colon_triple_groups in H3.
    destruct H3 as [g [a [v [-> [G [A [V1 V2]]]]]]].
    unfold dependency_record. cbn [group Nat.eqb].
    rewrite !coordinate_truthy by (exact V1 || apply G || apply A).
    repeat constructor. exists g, a, v. auto.
  - apply named_arguments_groups in H3.
    destruct H3 as [g [a [v [-> [G [A V]]]]]].
    unfold dependency_record. cbn [group Nat.eqb].
    change (Str.truthy None) with false. cbn [andb].
    rewrite !coordinate_truthy by (apply G || apply A || apply V).
    repeat constructor. exists g, a, v.
    destruct (coordinate_version v V). auto.
Qed.

Lemma kotlin_record_coordinates t s' m :
  match_here kotlin_dependency_pattern t = Some (s', m) ->
  coordinate_record (kotlin_record m).
Proof.
  intros H. apply match_here_denotes in H. destruct H as [w [_ D]].
  apply kotlin_groups in D. destruct D as [g [a [v [-> [G [A V]]]]]].
  exists g, a, v. destruct (coordinate_version v V). auto.
Qed.

Lemma gradle_build_dependencies_coordinates content :
  Forall coordinate_record (gradle_build_dependencies content).
Proof.
  unfold gradle_build_dependencies. apply Forall_app. split.
  - apply Forall_forall. intros r Hr. apply in_flat_map in Hr.
    destruct Hr as [m [Hm Hr]]. apply finditer_from_matches in Hm.
    destruct Hm as [t [s' Hm]].
    apply dependency_record_coordinates in Hm.
    rewrite Forall_forall in Hm. now apply Hm.
  - apply Forall_forall. intros r Hr. apply in_map_iff in Hr.
    destruct Hr as [m [<- Hm]]. apply finditer_from_matches in Hm.
    destruct Hm as [t [s' Hm]]. now apply kotlin_record_coordinates in Hm.
Qed.

(** X20: every record that [parse_gradle_build_file] returns has a
    groupId, an artifactId and a version that are texts, none of them
    empty; groupId and artifactId are made of letters, digits, dots,
    underscores and hyphens only, and the version of these and of word
    characters.  No record holds [None], a space, a quote or a colon. *)
Theorem build_file_records_are_coordinates
    (fs : filesystem) (build_file_path : string) :
  match parse_gradle_build_file fs build_file_path with
  | Returned _ deps =>
      Forall (fun r =>
                exists g a v,
                  r = {| groupId := Some g; artifactId := Some a;
                         version := Some v |} /\
                  (g <> EmptyString /\ all_chars coord_char g = true) /\
                  (a <> EmptyString /\ all_chars coord_char a = true) /\
                  v <> EmptyString /\ all_chars version_char v = true)
             deps
  | Raised _ _ => True
  end.
Proof.
  unfold parse_gradle_build_file.
  destruct (read_text fs build_file_path) as [[]|content]; simpl;
    try exact I; try constructor.
  apply gradle_build_dependencies_coordinates.
Qed.

Lemma gradle_line_coordinates line :
  Forall line_coordinate_record (gradle_line line).
Proof.
  unfold gradle_line. destruct (mentions_dependency line); [|constructor].
  destruct (search line_pattern line) as [m|] eqn:E; [|constructor].
  apply search_matches in E. destruct E as [t [s' E]].
  apply match_here_denotes in E. destruct E as [w [_ D]].
  apply line_pattern_groups in D.
  destruct D as [g [a [v [-> H]]]].
  repeat constructor. exists g, a, v. split; [reflexivity|exact H].
Qed.

(** X21: every record that [parse_gradle_file] returns has a groupId, an
    artifactId and a version that are texts, none of them empty; groupId
    and artifactId hold no colon and the version holds no quote (spaces,
    quotes in the first two, and line breaks are not excluded). *)
Theorem line_records_are_delimited (fs : filesystem) (file_path : string) :
  match parse_gradle_file fs file_path with
  | Returned _ deps =>
      Forall (fun r =>
                exists g a v,
                  r = {| groupId := Some g; artifactId := Some a;
                         version := Some v |} /\
                  g <> EmptyString /\ all_chars not_colon g = true /\
                  a <> EmptyString /\ all_chars not_colon a = true /\
                  v <> EmptyString /\ all_chars not_quote v = true)
             deps
  | Raised _ _ => True
  end.
Proof.
  unfold parse_gradle_file.
  destruct (read_text fs file_path) as [e|content]; [exact I|]. simpl.
  apply Forall_forall. intros r Hr. apply in_flat_map in Hr.
  destruct Hr as [line [_ Hr]].
  pose proof (gradle_line_coordinates line) as F.
  rewrite Forall_forall in F. now apply F.
Qed.

(* ================================================================= *)
(** ** Declarations that are recognised *)

Section Greedy.

Context {R : Type}.

Implicit Types k : @cont R.

Lemma run_cat r1 r2 s c k :
  run (Cat r1 r2) s c k = run r1 s c (fun s' c' => run r2 s' c' k).
Proof. reflexivity. Qed.

Lemma run_chr p a s c k : p a = true -> run (Chr p) (String a s) c k = k s c.
Proof. intros H. simpl. now rewrite H. Qed.

Lemma run_chr_fails p s c k : stops p s = true -> run (Chr p) s c k = None.
Proof.
  destruct s as [|a s]; [reflexivity|]. simpl.
  intros H. apply negb_true_iff in H. now rewrite H.
Qed.

Lemma run_lit l rest c k : run (lit l) (Str.cat l rest) c k = k rest c.
Proof.
  induction l as [|a l IH]; [reflexivity|].
  rewrite cat_cons. cbn [lit]. rewrite run_cat, run_chr by apply Ascii.eqb_refl.
  exact IH.
Qed.

Lemma iterate_succ fuel (body : string -> captures -> @cont R -> option R)
    s c k :
  iterate (S fuel) body s c k
  = match body s c (fun s' c' =>
                      if Nat.ltb (String.length s') (String.length s)
                      then iterate fuel body s' c' k else None) with
    | Some x => Some x
    | None => k s c
    end.
Proof. reflexivity. Qed.

(** A greedy run over characters of a class goes as far as they go,
    when what follows is accepted there. *)
Lemma iterate_chars p w : forall fuel rest c k x,
  all_chars p w = true ->
  stops p rest = true ->
  String.length w <= fuel ->
  k rest c = Some x ->
  iterate fuel (run (Chr p)) (Str.cat w rest) c k = Some x.
Proof.
  induction w as [|a w IH]; intros fuel rest c k x A S L K.
  - change (Str.cat EmptyString rest) with rest.
    destruct fuel as [|fuel]; [exact K|]. rewrite iterate_succ.
    now rewrite (run_chr_fails p rest c _ S).
  - destruct fuel as [|fuel]; [simpl in L; lia|].
    simpl in A. apply andb_prop in A. destruct A as [Pa A].
    rewrite cat_cons, iterate_succ. rewrite run_chr by exact Pa.
    replace (Nat.ltb (String.length (Str.cat w rest))
               (String.length (String a (Str.cat w rest)))) with true
      by (symmetry; apply Nat.ltb_lt; simpl; lia).
    rewrite (IH fuel rest c k x A S) by (simpl in L; lia || exact K).
    reflexivity.
Qed.

Lemma run_star_chars p w rest c k x :
  all_chars p w = true ->
  stops p rest = true ->
  k rest c = Some x ->
  run (Star (Chr p)) (Str.cat w rest) c k = Some x.
Proof.
  intros A S K. cbn [run]. apply iterate_chars; auto.
  rewrite length_cat. lia.
Qed.

Lemma run_plus_chars p w rest c k x :
  w <> EmptyString ->
  all_chars p w = true ->
  stops p rest = true ->
  k rest c = Some x ->
  run (plus (Chr p)) (Str.cat w rest) c k = Some x.
Proof.
  intros N A S K. destruct w as [|a w]; [now elim N|].
  simpl in A. apply andb_prop in A. destruct A as [Pa A].
  unfold plus. rewrite run_cat, cat_cons, run_chr by exact Pa.
  now apply run_star_chars.
Qed.

Lemma run_group_chars n p w rest c k x :
  w <> EmptyString ->
  all_chars p w = true ->
  stops p rest = true ->
  k rest ((n, w) :: c) = Some x ->
  run (Group n (plus (Chr p))) (Str.cat w rest) c k = Some x.
Proof.
  intros N A S K. cbn [run]. apply run_plus_chars; auto.
  now rewrite length_cat, Nat.add_sub, take_cat.
Qed.

End Greedy.

(** The search passes over the characters that cannot start a match. *)
Lemma search_skip p r2 pre s :
  all_chars (fun a => negb (p a)) pre = true ->
  search (Cat (Chr p) r2) (Str.cat pre s) = search (Cat (Chr p) r2) s.
Proof.
  induction pre as [|a pre IH]; [reflexivity|].
  simpl all_chars. intros H. apply andb_prop in H. destruct H as [Pa H].
  rewrite cat_cons. cbn [search]. unfold match_here at 1.
  rewrite run_cat, run_chr_fails by exact Pa. now apply IH.
Qed.

Lemma search_here r s s' m :
  match_here r s = Some (s', m) -> search r s = Some m.
Proof. intros H. destruct s; simpl; now rewrite H. Qed.

(** The pattern of [parse_gradle_file] on a quoted triple. *)
Lemma line_pattern_on_triple q1 g a v q2 post :
  quote_char q1 = true -> quote_char q2 = true ->
  g <> EmptyString -> all_chars not_colon g = true ->
  a <> EmptyString -> all_chars not_colon a = true ->
  v <> EmptyString -> all_chars not_quote v = true ->
  match_here line_pattern
    (String q1 (Str.cat g (String ":" (Str.cat a (String ":"
       (Str.cat v (String q2 post)))))))
  = Some (post, [(3, v); (2, a); (1, g)]).
Proof.
  intros Q1 Q2 G1 G2 A1 A2 V1 V2.
  unfold match_here. cbv [line_pattern seq quote].
  rewrite run_cat, run_chr by exact Q1.
  rewrite run_cat. apply run_group_chars; auto.
  change (String ":" (Str.cat a (String ":" (Str.cat v (String q2 post)))))
    with (Str.cat ":" (Str.cat a (String ":" (Str.cat v (String q2 post))))).
  rewrite run_cat, run_lit.
  rewrite run_cat. apply run_group_chars; auto.
  change (String ":" (Str.cat v (String q2 post)))
    with (Str.cat ":" (Str.cat v (String q2 post))).
  rewrite run_cat, run_lit.
  rewrite run_cat. apply run_group_chars; auto.
  - simpl. unfold not_quote, none_of. unfold quote_char in Q2.
    now rewrite Q2.
  - now rewrite run_chr by exact Q2.
Qed.

(** X22: a line that mentions a dependency and whose first quote opens a
    triple [g:a:v] closed by a quote, where [g] and [a] are not empty and
    hold no colon and [v] is not empty and holds no quote, gives in
    [parse_gradle_file] exactly the record of [g], [a] and [v], whatever
    follows on the line. *)
Theorem gradle_line_reads_quoted_triple
    (pre g a v post : string) (q1 q2 : ascii) :
  mentions_dependency
    (Str.cat pre (String q1 (Str.cat g (String ":" (Str.cat a (String ":"
       (Str.cat v (String q2 post)))))))) = true ->
  all_chars not_quote pre = true ->
  quote_char q1 = true -> quote_char q2 = true ->
  g <> EmptyString -> all_chars not_colon g = true ->
  a <> EmptyString -> all_chars not_colon a = true ->
  v <> EmptyString -> all_chars not_quote v = true ->
  gradle_line
    (Str.cat pre (String q1 (Str.cat g (String ":" (Str.cat a (String ":"
       (Str.cat v (String q2 post))))))))
  = [ {| groupId := Some g; artifactId := Some a; version := Some v |} ].
Proof.
  intros M P Q1 Q2 G1 G2 A1 A2 V1 V2. unfold gradle_line. rewrite M.
  cbv [line_pattern seq quote].
  rewrite (search_skip quote_char _ pre _ P).
  rewrite (search_here _ _ post [(3, v); (2, a); (1, g)]); [reflexivity|].
  now apply line_pattern_on_triple.
Qed.

Lemma gradle_line_reads_quoted_triple_witness :
  gradle_line
    (Str.cat "    implementation " (String squote (Str.cat "com.example"
       (String ":" (Str.cat "lib" (String ":"
          (Str.cat "1.0.0" (String squote " // core"))))))))
  = [ {| groupId := Some "com.example"; artifactId := Some "lib";
         version := Some "1.0.0" |} ].
Proof.
  apply (gradle_line_reads_quoted_triple "    implementation " "com.example"
           "lib" "1.0.0" " // core" squote squote);
    try reflexivity; discriminate.
Defined.

(** *** The colon triple in a build file *)

Ltac by_cases_on_character a :=
  destruct a as [[] [] [] [] [] [] [] []]; vm_compute;
  intros H; try reflexivity; discriminate H.

Lemma coord_not_space_or_quote a :
  coord_char a = true -> negb (space_or_quote a) = true.
Proof. by_cases_on_character a. Qed.

Lemma quote_not_coord a : quote_char a = true -> negb (coord_char a) = true.
Proof. by_cases_on_character a. Qed.

Lemma quote_not_hyphen a :
  quote_char a = true -> negb (Ascii.eqb "-" a) = true.
Proof. by_cases_on_character a. Qed.

Lemma coord_not_paren a : coord_char a = true -> not_paren a = true.
Proof. by_cases_on_character a. Qed.

Lemma space_or_quote_not_paren a :
  space_or_quote a = true -> not_paren a = true.
Proof. by_cases_on_character a. Qed.

Lemma quote_not_paren a : quote_char a = true -> not_paren a = true.
Proof. by_cases_on_character a. Qed.

Lemma all_chars_weaken (p q : ascii -> bool) s :
  (forall a, p a = true -> q a = true) ->
  all_chars p s = true -> all_chars q s = true.
Proof.
  intros W. induction s as [|c s IH]; [reflexivity|]. simpl.
  intros H. apply andb_prop in H. destruct H as [Hc Hs].
  now rewrite (W c Hc), IH.
Qed.

Lemma stops_after (p q : ascii -> bool) s rest :
  (forall a, q a = true -> negb (p a) = true) ->
  all_chars q s = true -> s <> EmptyString ->
  stops p (Str.cat s rest) = true.
Proof.
  intros W A N. destruct s as [|c s]; [now elim N|].
  simpl in A. apply andb_prop in A. destruct A as [Hc _].
  rewrite cat_cons. simpl. now apply W.
Qed.

Lemma stops_on (p q : ascii -> bool) s :
  (forall a, q a = true -> negb (p a) = true) ->
  all_chars q s = true -> stops p s = true.
Proof.
  intros W A. destruct s as [|c s]; [reflexivity|].
  simpl in A. apply andb_prop in A. destruct A as [Hc _]. simpl. now apply W.
Qed.

Section First.

Context {R : Type}.

Implicit Types k : @cont R.

Lemma run_alt_first r1 r2 s c k x :
  run r1 s c k = Some x -> run (Alt r1 r2) s c k = Some x.
Proof. intros H. cbn [run]. now rewrite H. Qed.

(** A repetition whose body cannot start leaves the text to the
    continuation. *)
Lemma run_star_stops r s c k :
  (forall k', run r s c k' = None) -> run (Star r) s c k = k s c.
Proof.
  intros N. change (run (Star r) s c k)
    with (iterate (String.length s) (run r) s c k).
  destruct (String.length s) as [|fuel]; [reflexivity|].
  now rewrite iterate_succ, N.
Qed.

Lemma run_hyphen_fails r s c k :
  stops (Ascii.eqb "-") s = true -> run (Cat (lit "-") r) s c k = None.
Proof.
  intros S. change (lit "-") with (Cat (Chr (Ascii.eqb "-")) Eps).
  rewrite !run_cat. now apply run_chr_fails.
Qed.

Lemma run_opt_at_end l a c k :
  run (opt (lit (String a l))) EmptyString c k = k EmptyString c.
Proof. reflexivity. Qed.

End First.

(** The first pattern of [parse_gradle_build_file] on a colon triple
    after the keyword. *)
Lemma dependency_pattern_on_triple sp g a v qs :
  all_chars space_or_quote sp = true ->
  coordinate g -> coordinate a -> coordinate v ->
  all_chars quote_char qs = true ->
  match_here dependency_pattern
    (Str.cat "implementation" (Str.cat sp (Str.cat g (String ":"
       (Str.cat a (String ":" (Str.cat v qs)))))))
  = Some (EmptyString, [(3, v); (2, a); (1, g)]).
Proof.
  intros SP [G1 G2] [A1 A2] [V1 V2] QS.
  unfold match_here, dependency_pattern. apply run_alt_first.
  cbv [colon_triple seq alts keywords map app].
  rewrite run_cat. apply run_alt_first. rewrite run_lit.
  change (fun a0 : ascii => (space a0 || any_of [dquote; squote] a0)%bool)
    with space_or_quote.
  rewrite run_cat. apply run_star_chars; [exact SP | |].
  { exact (stops_after space_or_quote coord_char g _
             coord_not_space_or_quote G2 G1). }
  rewrite run_cat. apply run_group_chars; [exact G1 | exact G2 | reflexivity |].
  change (String ":" (Str.cat a (String ":" (Str.cat v qs))))
    with (Str.cat ":" (Str.cat a (String ":" (Str.cat v qs)))).
  rewrite run_cat, run_lit.
  rewrite run_cat. apply run_group_chars; [exact A1 | exact A2 | reflexivity |].
  change (String ":" (Str.cat v qs)) with (Str.cat ":" (Str.cat v qs)).
  rewrite run_cat, run_lit.
  rewrite run_cat.
  change (run (Group 3 ?r) ?s ?c ?k)
    with (run r s c (fun s' c' =>
            k s' ((3, Str.take (String.length s - String.length s') s) :: c'))).
  rewrite run_cat. apply run_plus_chars; [exact V1 | exact V2 | |].
  { exact (stops_on coord_char quote_char qs quote_not_coord QS). }
  rewrite run_star_stops.
  2:{ intros k'. apply run_hyphen_fails.
      exact (stops_on _ quote_char qs quote_not_hyphen QS). }
  rewrite length_cat, Nat.add_sub, take_cat.
  rewrite run_cat. rewrite <- (cat_empty_r qs) at 1.
  apply run_star_chars; [exact QS | reflexivity | reflexivity].
Qed.

Lemma finditer_whole r s m :
  match_here r s = Some (EmptyString, m) ->
  s <> EmptyString ->
  match_here r EmptyString = None ->
  finditer r s = [m].
Proof.
  intros H N E. unfold finditer. simpl finditer_from. rewrite H.
  destruct s as [|a s]; [now elim N|]. simpl.
  now rewrite E.
Qed.

Lemma finditer_from_none (q : ascii -> bool) r :
  (forall t, all_chars q t = true -> match_here r t = None) ->
  forall fuel s, all_chars q s = true -> finditer_from fuel r s = [].
Proof.
  intros N. induction fuel as [|fuel IH]; intros s A; [reflexivity|].
  simpl. rewrite (N s A). destruct s as [|a s]; [reflexivity|].
  apply IH. simpl in A. apply andb_prop in A. tauto.
Qed.

Lemma denotes_lit l : forall w c c', denotes (lit l) w c c' -> w = l.
Proof.
  induction l as [|a l IH]; intros w c c' H; cbn [lit] in H.
  - now inversion H.
  - apply denotes_cat_inv in H. destruct H as [w1 [w2 [c1 [-> [D H]]]]].
    inversion D as [ | p b c2 Pb | | | | | | ]; subst.
    apply Ascii.eqb_eq in Pb. subst.
    now rewrite (IH _ _ _ H).
Qed.

(** A match of the pattern of the second loop holds a parenthesis. *)
Lemma kotlin_needs_paren t :
  all_chars not_paren t = true ->
  match_here kotlin_dependency_pattern t = None.
Proof.
  intros A. destruct (match_here kotlin_dependency_pattern t) as [[s' m]|] eqn:E;
    [|reflexivity].
  apply match_here_denotes in E. destruct E as [w [-> D]].
  cbv [kotlin_dependency_pattern seq] in D.
  apply denotes_cat_inv in D. destruct D as [k0 [r0 [c0 [-> [_ D]]]]].
  apply denotes_cat_inv in D. destruct D as [k1 [r1 [c1 [-> [D _]]]]].
  apply denotes_lit in D. subst k1.
  rewrite !all_chars_cat in A. simpl in A.
  rewrite andb_false_r in A. discriminate A.
Qed.

(** X23: a build file whose text is the keyword [implementation], any
    run of spaces and quotes, a triple [g:a:v] of non-empty texts made
    of letters, digits, dots, underscores and hyphens, and any run of
    quotes gives in [parse_gradle_build_file] exactly one record, that of
    [g], [a] and [v]. *)
Theorem build_file_reads_colon_triple (sp g a v qs : string) :
  all_chars space_or_quote sp = true ->
  (g <> EmptyString /\ all_chars coord_char g = true) ->
  (a <> EmptyString /\ all_chars coord_char a = true) ->
  (v <> EmptyString /\ all_chars coord_char v = true) ->
  all_chars quote_char qs = true ->
  gradle_build_dependencies
    (Str.cat "implementation" (Str.cat sp (Str.cat g (String ":"
       (Str.cat a (String ":" (Str.cat v qs)))))))
  = [ {| groupId := Some g; artifactId := Some a; version := Some v |} ].
Proof.
  intros SP G A V QS. unfold gradle_build_dependencies.
  rewrite (finditer_whole dependency_pattern _ [(3, v); (2, a); (1, g)]).
  - unfold finditer.
    rewrite (finditer_from_none not_paren kotlin_dependency_pattern
               kotlin_needs_paren).
    + cbn [flat_map map app]. unfold dependency_record. cbn [group Nat.eqb].
      rewrite !coordinate_truthy by (apply G || apply A || apply V).
      reflexivity.
    + destruct G as [_ G], A as [_ A], V as [_ V].
      rewrite !all_chars_cat.
      rewrite (all_chars_weaken _ _ sp space_or_quote_not_paren SP).
      rewrite (all_chars_weaken _ _ g coord_not_paren G).
      change (String ":" (Str.cat a (String ":" (Str.cat v qs))))
        with (Str.cat ":" (Str.cat a (Str.cat ":" (Str.cat v qs)))).
      rewrite !all_chars_cat.
      rewrite (all_chars_weaken _ _ a coord_not_paren A).
      rewrite (all_chars_weaken _ _ v coord_not_paren V).
      rewrite (all_chars_weaken _ _ qs quote_not_paren QS).
      reflexivity.
  - now apply dependency_pattern_on_triple.
  - discriminate.
  - reflexivity.
Qed.

Lemma build_file_reads_colon_triple_witness :
  gradle_build_dependencies
    (Str.cat "implementation" (Str.cat " '" (Str.cat "com.example" (String ":"
       (Str.cat "lib" (String ":" (Str.cat "1.0.0" "'")))))))
  = [ {| groupId := Some "com.example"; artifactId := Some "lib";
         version := Some "1.0.0" |} ].
Proof.
  apply (build_file_reads_colon_triple " '" "com.example" "lib" "1.0.0" "'");
    try reflexivity; split; try reflexivity; discriminate.
Defined.
